(** * The metrics engine of [generate.mjs]

    A shallow embedding of the "Compute Metrics" block of [generate.mjs]
    (lines 30-60), of [maxDailyMsg] (line 187) and of the helper [pct]
    (lines 157-159), followed by the properties the specification states
    about them; then of the rest of the generator that computes something:
    the session loader and the prompt extractor (lines 117-144), the helpers
    [fmt], [modelColor], [modelShortName] and [escapeHtml] (lines 146-182)
    and the bar heights, highlights and labels of the two pages, with the
    properties the code itself shows.

    Numbers.  The token and message counts of [stats-cache.json] are
    integers; they are modelled as [Z] and their sums are exact, which is what
    the binary64 arithmetic of JavaScript computes as long as the values stay
    within the safe-integer range.  The two quantities that leave the integers,
    [costEstimate] and the argument of [toFixed] in [pct], are modelled as
    exact rationals [Q]; the binary64 rounding of a quotient is not modelled.
    A field that may be absent from the JSON document is an [option Z], and the
    only non-integer value the integer arithmetic of the engine can produce
    from an absent field, [NaN], is a constructor of [JS.num]. *)

From Stdlib Require Import ZArith QArith Qround Qabs Lia Ascii String.
From stdpp Require Import base list sorting gmap strings pretty.

#[local] Open Scope Z_scope.

(** ** The fragment of JavaScript the engine uses *)

Module JS.

(** A number computed by the engine: an integer, or [NaN]. *)
Inductive num : Type :=
  | Int (z : Z)
  | NaN.

(** [v || 0] for a field [v] that is a number or [undefined]: both
    [undefined] and [0] are falsy. *)
Definition or_zero (v : option Z) : Z :=
  match v with
  | Some z => z
  | None => 0
  end.

(** [v || alt] where [alt] is a number: a present, nonzero [v] is truthy. *)
Definition or_else (v : option Z) (alt : num) : num :=
  match v with
  | Some z => if decide (z = 0) then alt else Int z
  | None => alt
  end.

(** [s + v]: [undefined] is converted to [NaN], which is absorbing. *)
Definition add (s : num) (v : option Z) : num :=
  match s, v with
  | Int a, Some b => Int (a + b)
  | _, _ => NaN
  end.

(** [a - b] on two fields. *)
Definition sub (a b : option Z) : num :=
  match a, b with
  | Some x, Some y => Int (x - y)
  | _, _ => NaN
  end.

(** [a > b] on two fields: a comparison with [NaN] is [false]. *)
Definition gt (a b : option Z) : bool :=
  match a, b with
  | Some x, Some y => bool_decide (y < x)
  | _, _ => false
  end.

(** [Math.max(...args, last)]: any [undefined] argument gives [NaN]. *)
Definition Math_max (args : list (option Z)) (last : Z) : num :=
  foldr (λ v acc,
           match v, acc with
           | Some a, Int b => Int (Z.max a b)
           | _, _ => NaN
           end) (Int last) args.

(** [arr.reduce(f, init)]. *)
Definition reduce {A B : Type} (f : B → A → B) (init : B) (arr : list A) : B :=
  fold_left f arr init.

(** [Array.prototype.sort(comparefn)].  ECMAScript requires the sort to be
    stable and, for a consistent comparator, fixes the result: the elements
    in ascending [comparefn] order, equal elements in their original order
    (lemma [stable_sort_unique] below shows that these two conditions leave
    one list only).  The model is the insertion sort that meets them; a
    [NaN] returned by the comparator counts as [+0], as in SortCompare. *)
Section sort.
Context {A : Type} (comparefn : A → A → num).

Definition sort_compare (x y : A) : Z :=
  match comparefn x y with
  | Int v => v
  | NaN => 0
  end.

(** [x] stood before every element of [l] in the array. *)
Fixpoint sort_insert (x : A) (l : list A) : list A :=
  match l with
  | [] => [x]
  | y :: l' =>
      if decide (0 < sort_compare x y) then y :: sort_insert x l'
      else x :: y :: l'
  end.

Definition sort (arr : list A) : list A := foldr sort_insert [] arr.
End sort.

(** [Number.prototype.toFixed(f)] on an exact rational, step by step as in
    ECMA-262.  From [10^21] on the standard hands over to
    [Number::toString], whose shortest-digits output depends on the
    binary64 grid; it is a parameter here. *)
Section toFixed.
Variable Number_toString : Q → string.

Fixpoint zeros (k : nat) : string :=
  match k with
  | O => EmptyString
  | S k' => String "0"%char (zeros k')
  end.

(** "Let n be an integer for which n / 10^f - x is as close to zero as
    possible. If there are two such n, pick the larger n." *)
Definition nearest (f : nat) (x : Q) : Z :=
  Qfloor (x * inject_Z (10 ^ Z.of_nat f) + (1 # 2)).

(** Steps 9.b to 9.d: the digits of [n], padded with zeros up to [f + 1]
    characters, with a point before the last [f]. *)
Definition digits (f : nat) (n : Z) : string :=
  let m := if decide (n = 0) then "0" else pretty (Z.to_N n) in
  if decide (f = 0%nat) then m
  else
    let k := String.length m in
    let m := if decide (k ≤ f)%nat then zeros (f + 1 - k) +:+ m else m in
    let k := if decide (k ≤ f)%nat then (f + 1)%nat else k in
    substring 0 (k - f) m +:+ "." +:+ substring (k - f) f m.

Definition toFixed (f : nat) (x0 : Q) : string :=
  let s := if Qle_bool 0 x0 then EmptyString else "-" in
  let x := Qabs x0 in
  let m :=
    if Qle_bool (inject_Z (10 ^ 21)) x then Number_toString x
    else digits f (nearest f x)
  in s +:+ m.
End toFixed.

End JS.

(** ** The data model: the parts of [stats-cache.json] the engine reads *)

(** One value of the [modelUsage] object. *)
Record TokenCounts : Type := {
  inputTokens : option Z;
  outputTokens : option Z;
  cacheReadInputTokens : option Z;
  cacheCreationInputTokens : option Z
}.

(** One element of the [dailyActivity] array. *)
Record DayRecord : Type := {
  date : string;
  messageCount : option Z;
  sessionCount : option Z;
  toolCallCount : option Z
}.

(** The parsed document [stats].  [modelUsage] is the object in the order
    [Object.entries] enumerates it; its keys are pairwise distinct. *)
Module stats.
Record t : Type := {
  modelUsage : list (string * TokenCounts);
  dailyActivity : option (list DayRecord);
  hourCounts : option (gmap string Z);
  totalMessages : option Z;
  totalSessions : option Z
}.
End stats.

(** An element of [models]: the object [{ id, ...u, total }].  [usage] holds
    the spread fields of [u], so [m.inputTokens] is [inputTokens (usage m)]. *)
Record ModelAggregate : Type := {
  model_id : string;
  usage : TokenCounts;
  total : Z
}.

(** ** Compute Metrics (lines 30-60) *)

(** The callback of [map] on line 30. *)
Definition aggregate (e : string * TokenCounts) : ModelAggregate :=
  let '(id, u) := e in
  let total := JS.or_zero (inputTokens u) + JS.or_zero (outputTokens u) +
               JS.or_zero (cacheReadInputTokens u) +
               JS.or_zero (cacheCreationInputTokens u) in
  {| model_id := id; usage := u; total := total |}.

(** The comparator of line 34, [(a, b) => b.total - a.total]. *)
Definition by_total (a b : ModelAggregate) : JS.num := JS.Int (total b - total a).

Definition models (s : stats.t) : list ModelAggregate :=
  JS.sort by_total (aggregate <$> stats.modelUsage s).

Definition totalTokens (s : stats.t) : Z :=
  JS.reduce (λ acc m, acc + total m) 0 (models s).
Definition totalInput (s : stats.t) : Z :=
  JS.reduce (λ acc m, acc + JS.or_zero (inputTokens (usage m))) 0 (models s).
Definition totalOutput (s : stats.t) : Z :=
  JS.reduce (λ acc m, acc + JS.or_zero (outputTokens (usage m))) 0 (models s).
Definition totalCacheRead (s : stats.t) : Z :=
  JS.reduce (λ acc m, acc + JS.or_zero (cacheReadInputTokens (usage m))) 0 (models s).
Definition totalCacheCreate (s : stats.t) : Z :=
  JS.reduce (λ acc m, acc + JS.or_zero (cacheCreationInputTokens (usage m))) 0 (models s).

(** The expression of line 43 as a function of the four totals. *)
Definition costEstimateOf (totalInput totalOutput totalCacheRead totalCacheCreate : Z) : Q :=
  (inject_Z totalInput * 15 + inject_Z totalOutput * 75 +
   inject_Z totalCacheRead * 1.5 + inject_Z totalCacheCreate * 3.75) / 1000000.

Definition costEstimate (s : stats.t) : Q :=
  costEstimateOf (totalInput s) (totalOutput s) (totalCacheRead s) (totalCacheCreate s).

(** A per-million-token rate table, and the one written into line 43. *)
Record RateTable : Type := {
  R_in : Q;
  R_out : Q;
  R_cacheRead : Q;
  R_cacheCreate : Q
}.

Definition RATES : RateTable :=
  {| R_in := 15; R_out := 75; R_cacheRead := 1.5; R_cacheCreate := 3.75 |}.

Definition daily (s : stats.t) : list DayRecord :=
  match stats.dailyActivity s with
  | Some arr => arr
  | None => []
  end.

Definition totalMessages (s : stats.t) : JS.num :=
  JS.or_else (stats.totalMessages s)
    (JS.reduce (λ acc d, JS.add acc (messageCount d)) (JS.Int 0) (daily s)).
Definition totalSessions (s : stats.t) : JS.num :=
  JS.or_else (stats.totalSessions s)
    (JS.reduce (λ acc d, JS.add acc (sessionCount d)) (JS.Int 0) (daily s)).
Definition totalToolCalls (s : stats.t) : Z :=
  JS.reduce (λ acc d, acc + JS.or_zero (toolCallCount d)) 0 (daily s).

(** The fallback object of line 53, [{ date: 'N/A', messageCount: 0 }]. *)
Definition sentinel : DayRecord :=
  {| date := "N/A"; messageCount := Some 0; sessionCount := None; toolCallCount := None |}.

(** The callback of [reduce] on line 53. *)
Definition busier (max d : DayRecord) : DayRecord :=
  if JS.gt (messageCount d) (messageCount max) then d else max.

Definition peakDay (s : stats.t) : DayRecord :=
  JS.reduce busier
    (match daily s with
     | d0 :: _ => d0
     | [] => sentinel
     end)
    (daily s).

(** The comparator of line 56, [(a, b) => b.messageCount - a.messageCount]. *)
Definition by_messages (a b : DayRecord) : JS.num :=
  JS.sub (messageCount b) (messageCount a).

Definition topDays (s : stats.t) : list DayRecord :=
  take 5 (JS.sort by_messages (daily s)).

Definition hourCounts (s : stats.t) : gmap string Z :=
  match stats.hourCounts s with
  | Some o => o
  | None => ∅
  end.

(** [Object.values(hourCounts)]. *)
Definition hourValues (s : stats.t) : list (option Z) :=
  (λ kv, Some kv.2) <$> map_to_list (hourCounts s).

Definition maxHourCount (s : stats.t) : JS.num := JS.Math_max (hourValues s) 1.

(** Line 187, the first statement of [generateHTML]. *)
Definition maxDailyMsg (s : stats.t) : JS.num :=
  JS.Math_max (messageCount <$> daily s) 1.

(** ** The helper [pct] (lines 157-159) *)


(** ** Specification-side notions *)

(** The sum of [f] over a list, the reading of "Σ over all models". *)
Definition Zsum {A : Type} (f : A → Z) (l : list A) : Z :=
  foldr (λ x acc, f x + acc) 0 l.

(** [l] lists its elements by descending [key]. *)
Definition descending {A : Type} (key : A → Z) (l : list A) : Prop :=
  StronglySorted (λ a b, key b ≤ key a) l.

(** [l'] keeps, among the elements of [l] with one and the same [key], the
    order they have in [l]. *)
Definition keeps_order {A : Type} (key : A → Z) (l l' : list A) : Prop :=
  ∀ k : Z, filter (λ a, key a = k) l' = filter (λ a, key a = k) l.

(** The number of messages of a day whose [messageCount] is present. *)
Definition messages (d : DayRecord) : Z := JS.or_zero (messageCount d).

(** Every record of the list has its [messageCount]. *)
Definition counted (l : list DayRecord) : Prop :=
  Forall (λ d, is_Some (messageCount d)) l.

(** A non-negative number [n] of tenths written with one decimal place:
    the digits of the integer part, a point, one digit. *)
Definition one_decimal (n : Z) : string :=
  pretty (Z.to_N (n / 10)) +:+ "." +:+ pretty (Z.to_N (n mod 10)).

(** On the elements of [l] the comparator [cmp] is
    [(a, b) => key(b) - key(a)]. *)
Definition by_key {A : Type} (cmp : A → A → JS.num) (key : A → Z) (l : list A) : Prop :=
  ∀ x y, x ∈ l → y ∈ l → JS.sort_compare cmp x y = key y - key x.

(** ** Snapshots and quantities the statements refer to *)

(** The snapshot of Scenario A. *)
Definition scenario_A : stats.t :=
  {| stats.modelUsage :=
       [("m1"%string,
         {| inputTokens := Some 1000000; outputTokens := Some 2000000;
            cacheReadInputTokens := Some 0; cacheCreationInputTokens := Some 0 |})];
     stats.dailyActivity := None;
     stats.hourCounts := None;
     stats.totalMessages := None;
     stats.totalSessions := None |}.

(** The snapshot in which every collection is empty or absent. *)
Definition empty_stats : stats.t :=
  {| stats.modelUsage := [];
     stats.dailyActivity := Some [];
     stats.hourCounts := None;
     stats.totalMessages := None;
     stats.totalSessions := None |}.



(** A day record with every absent counter written as 0, and a snapshot
    with every day so rewritten. *)
Definition zero_fill (d : DayRecord) : DayRecord :=
  {| date := date d;
     messageCount := Some (JS.or_zero (messageCount d));
     sessionCount := Some (JS.or_zero (sessionCount d));
     toolCallCount := Some (JS.or_zero (toolCallCount d)) |}.

Definition zero_filled (s : stats.t) : stats.t :=
  {| stats.modelUsage := stats.modelUsage s;
     stats.dailyActivity :=
       match stats.dailyActivity s with
       | Some arr => Some (zero_fill <$> arr)
       | None => None
       end;
     stats.hourCounts := stats.hourCounts s;
     stats.totalMessages := stats.totalMessages s;
     stats.totalSessions := stats.totalSessions s |}.

(** Two days, the first with no counter at all, and no lifetime counter. *)
Definition sparse_stats : stats.t :=
  {| stats.modelUsage := [];
     stats.dailyActivity :=
       Some [ {| date := "2026-01-01"; messageCount := None;
                 sessionCount := None; toolCallCount := None |};
              {| date := "2026-01-02"; messageCount := Some 5;
                 sessionCount := Some 1; toolCallCount := Some 2 |} ];
     stats.hourCounts := None;
     stats.totalMessages := None;
     stats.totalSessions := None |}.

(** ** The rest of the metrics block and the charts of [generateHTML] *)



(** [Math.max((count / max) * 100, 1)], the height of a bar in percent
    (lines 190 and 238); [None] stands for [NaN]. *)
Definition barHeight (count : option Z) (max : JS.num) : option Q :=
  match count, max with
  | Some c, JS.Int m =>
      let x := (inject_Z c / inject_Z m * 100)%Q in
      Some (if Qle_bool 1 x then x else 1%Q)
  | _, _ => None
  end.

(** Line 190: the height of the bar of day [d]. *)
Definition dailyBarHeight (s : stats.t) (d : DayRecord) : option Q :=
  barHeight (messageCount d) (maxDailyMsg s).

(** Line 193, [topDays.some(t => t.date === d.date)]. *)
Definition isTop5 (s : stats.t) (d : DayRecord) : bool :=
  existsb (λ t, bool_decide (date t = date d)) (topDays s).

(** Lines 236-238: one bar per hour [h] of [Array.from({ length: 24 })],
    with [count = hourCounts[h] || 0]; the property key of the number [h]
    is its decimal string. *)
Definition hourCount (s : stats.t) (h : nat) : Z :=
  JS.or_zero (hourCounts s !! pretty (N.of_nat h)).

Definition hourBars (s : stats.t) : list (nat * option Q) :=
  (λ h, (h, barHeight (Some (hourCount s h)) (maxHourCount s))) <$> seq 0 24.


(** Every counter of the snapshot that is present is non-negative. *)
Definition nonneg_usage (s : stats.t) : Prop :=
  Forall (λ e, 0 ≤ JS.or_zero (inputTokens e.2) ∧ 0 ≤ JS.or_zero (outputTokens e.2)
               ∧ 0 ≤ JS.or_zero (cacheReadInputTokens e.2)
               ∧ 0 ≤ JS.or_zero (cacheCreationInputTokens e.2)) (stats.modelUsage s).

(** The snapshot of Scenario B: two days, of 10 and of 50 messages. *)
Definition scenario_B : stats.t :=
  {| stats.modelUsage := [];
     stats.dailyActivity :=
       Some [ {| date := "2026-01-01"; messageCount := Some 10;
                 sessionCount := Some 1; toolCallCount := Some 3 |};
              {| date := "2026-01-02"; messageCount := Some 50;
                 sessionCount := Some 2; toolCallCount := Some 7 |} ];
     stats.hourCounts := Some {[ "9"%string := 40; "14"%string := 20 ]};
     stats.totalMessages := None;
     stats.totalSessions := None |}.

(** ** [escapeHtml] (lines 180-182) *)

(** A JavaScript string is modelled by a [string], one character for each
    of its code units. *)

(** [s.replace(/c/g, r)] for a pattern that is the single character [c]. *)
Fixpoint replace_all (c : ascii) (r : string) (s : string) : string :=
  match s with
  | EmptyString => EmptyString
  | String x s' =>
      if decide (x = c) then r +:+ replace_all c r s'
      else String x (replace_all c r s')
  end.

(** The four passes of line 181, in their order; ["034"] is the double
    quote. *)
Definition escapeHtml (s : string) : string :=
  replace_all "034" "&quot;"
    (replace_all ">" "&gt;" (replace_all "<" "&lt;" (replace_all "&" "&amp;" s))).

(** What the four passes together make of one character. *)
Definition escape_char (x : ascii) : string :=
  if decide (x = "&"%char) then "&amp;"
  else if decide (x = "<"%char) then "&lt;"
  else if decide (x = ">"%char) then "&gt;"
  else if decide (x = "034"%char) then "&quot;"
  else String x EmptyString.

(** The characters of a string. *)
Definition chars (s : string) : list ascii := list_ascii_of_string s.

(** The decoding of the four entities, as a reader of the page does it. *)
Fixpoint unescape (s : string) : string :=
  match s with
  | EmptyString => EmptyString
  | String "&" (String "a" (String "m" (String "p" (String ";" t)))) =>
      String "&" (unescape t)
  | String "&" (String "l" (String "t" (String ";" t))) => String "<" (unescape t)
  | String "&" (String "g" (String "t" (String ";" t))) => String ">" (unescape t)
  | String "&" (String "q" (String "u" (String "o" (String "t" (String ";" t))))) =>
      String "034" (unescape t)
  | String x t => String x (unescape t)
  end.

(** [x] is none of the four characters [escapeHtml] replaces. *)
Definition plain_char (x : ascii) : Prop :=
  x ≠ "&"%char ∧ x ≠ "<"%char ∧ x ≠ ">"%char ∧ x ≠ "034"%char.

(** ** Sessions and prompts (lines 117-144) *)

(** An entry of a [sessions-index.json], as far as the generator reads it. *)
Module Entry.
Record t : Type := {
  created : option string;
  firstPrompt : option string;
  summary : option string;
  messageCount : option Z
}.
End Entry.

(** An element of [sessions]: [{ ...entry, projectDir: dir, projectName }]. *)
Module Session.
Record t : Type := {
  entry : Entry.t;
  projectDir : string;
  projectName : string
}.
End Session.

(** What [loadAllSessions] finds for one directory of [PROJECTS_DIR]:
    no [sessions-index.json]; a file whose reading or parsing throws (or
    whose [entries] cannot be iterated), which the [catch] of line 129
    swallows; or a parsed index, whose [entries] may be absent. *)
Inductive IndexFile : Type :=
  | Missing
  | Unreadable
  | Index (entries : option (list Entry.t)).

(** Line 125, [dir.replace(/-/g, '/').replace(/^\//, '')]. *)
Definition dropLeadingSlash (s : string) : string :=
  match s with
  | String "/" t => t
  | _ => s
  end.

Definition projectNameOf (dir : string) : string :=
  dropLeadingSlash (replace_all "-" "/" dir).

(** The body of the loop of lines 120-130 for one directory. *)
Definition sessionsOf (d : string * IndexFile) : list Session.t :=
  match d.2 with
  | Index (Some entries) =>
      (λ e, {| Session.entry := e; Session.projectDir := d.1;
               Session.projectName := projectNameOf d.1 |}) <$> entries
  | _ => []
  end.

Section sessions.
(** [new Date(text).getTime()], with [None] for an invalid date; the
    parser of date strings is not part of the repository. *)
Variable Date_parse : string → option Z.

(** The time value of [new Date(created)]; an absent [created] gives an
    invalid date. *)
Definition timeOf (created : option string) : option Z :=
  match created with
  | Some text => Date_parse text
  | None => None
  end.

(** The comparator of line 131,
    [(a, b) => new Date(b.created) - new Date(a.created)]. *)
Definition by_created (a b : Session.t) : JS.num :=
  JS.sub (timeOf (Entry.created (Session.entry b)))
         (timeOf (Entry.created (Session.entry a))).

(** [projects] is [None] when [PROJECTS_DIR] does not exist, and otherwise
    the directories in the order of [readdirSync]. *)
Definition loadAllSessions (projects : option (list (string * IndexFile))) :
    list Session.t :=
  match projects with
  | None => []
  | Some dirs => JS.sort by_created (mjoin (sessionsOf <$> dirs))
  end.
End sessions.

(** An element of [prompts]. *)
Module Prompt.
Record t : Type := {
  date : option string;
  prompt : string;
  summary : string;
  project : string;
  messages : Z
}.
End Prompt.

(** A string value is truthy when it is present and not empty. *)
Definition truthy (v : option string) : Prop :=
  match v with
  | Some (String _ _) => True
  | _ => False
  end.

#[global] Instance truthy_dec (v : option string) : Decision (truthy v).
Proof. destruct v as [[|? ?]|]; simpl; apply _. Defined.




(** Every session of the list has a [created] that parses as a date. *)
Definition dated (Date_parse : string → option Z) (l : list Session.t) : Prop :=
  Forall (λ s, is_Some (timeOf Date_parse (Entry.created (Session.entry s)))) l.

(** The time of a session whose [created] parses. *)
Definition sessionTime (Date_parse : string → option Z) (s : Session.t) : Z :=
  JS.or_zero (timeOf Date_parse (Entry.created (Session.entry s))).


(** The number of entries a directory contributes. *)
Definition entryCount (d : string * IndexFile) : nat :=
  match d.2 with
  | Index (Some entries) => length entries
  | _ => 0%nat
  end.


(** A date parser for the examples: it knows two instants. *)
Definition demo_parse (text : string) : option Z :=
  if decide (text = "2026-01-01T09:00:00.000Z") then Some 1767258000000
  else if decide (text = "2026-01-02T09:00:00.000Z") then Some 1767344400000
  else None.

(** A projects directory for the examples: one index with two entries, the
    older first and without a prompt, one unreadable index and one
    directory without an index. *)
Definition demo_projects : list (string * IndexFile) :=
  [ ("-Users-nat-my-app"%string,
     Index (Some [ {| Entry.created := Some "2026-01-01T09:00:00.000Z"%string;
                      Entry.firstPrompt := None;
                      Entry.summary := None;
                      Entry.messageCount := Some 4 |};
                   {| Entry.created := Some "2026-01-02T09:00:00.000Z"%string;
                      Entry.firstPrompt := Some "fix <title> & footer"%string;
                      Entry.summary := Some "Fixing the page"%string;
                      Entry.messageCount := None |} ]));
    ("broken"%string, Unreadable);
    ("no-index"%string, Missing) ].

(** ** The formatter [fmt] (lines 146-151) *)

(** [n.toString()] on an integer: its decimal digits, with a minus sign if
    it is negative, below [10^21] in magnitude. *)
Definition toString (Number_toString : Q → string) (n : Z) : string :=
  if decide (Z.abs n < 10 ^ 21) then pretty n else Number_toString (inject_Z n).

(** [fmt] on an integer.  As everywhere in this file the quotient is exact:
    when it lies exactly half-way between two printable values, [toFixed]
    prints the upper one here, while the binary64 quotient of JavaScript
    may fall on either side; the statements about [fmt] leave those
    inputs out. *)
Definition fmt (Number_toString : Q → string) (n : Z) : string :=
  if decide (10 ^ 9 ≤ n) then
    JS.toFixed Number_toString 2 (inject_Z n / 1000000000) +:+ "B"
  else if decide (10 ^ 6 ≤ n) then
    JS.toFixed Number_toString 2 (inject_Z n / 1000000) +:+ "M"
  else if decide (10 ^ 3 ≤ n) then
    JS.toFixed Number_toString 1 (inject_Z n / 1000) +:+ "K"
  else toString Number_toString n.

(** A non-negative number [n] of hundredths written with two decimal
    places. *)
Definition two_decimal (n : Z) : string :=
  pretty (Z.to_N (n / 100)) +:+ "." +:+ pretty (Z.to_N ((n / 10) mod 10))
  +:+ pretty (Z.to_N (n mod 10)).

(** ** [modelColor] and [modelShortName] (lines 161-178) *)

(** [hay.includes(needle)]. *)
Fixpoint includes (needle hay : string) : bool :=
  if String.prefix needle hay then true
  else
    match hay with
    | EmptyString => false
    | String _ t => includes needle t
    end.

(** A palette entry, [{ bg, hex }]. *)
Record Color : Type := {
  bg : string;
  hex : string
}.

Definition modelColor (id : string) : Color :=
  if includes "opus-4-6" id then {| bg := "indigo"; hex := "#6366f1" |}
  else if includes "opus" id then {| bg := "violet"; hex := "#8b5cf6" |}
  else if includes "sonnet" id then {| bg := "emerald"; hex := "#10b981" |}
  else if includes "haiku" id then {| bg := "amber"; hex := "#f59e0b" |}
  else if includes "gemini" id then {| bg := "blue"; hex := "#3b82f6" |}
  else if includes "glm" id then {| bg := "rose"; hex := "#f43f5e" |}
  else if includes "gpt" id then {| bg := "teal"; hex := "#14b8a6" |}
  else if includes "grok" id then {| bg := "orange"; hex := "#f97316" |}
  else {| bg := "gray"; hex := "#6b7280" |}.

(** The string without its first [n] characters. *)
Fixpoint skip (n : nat) (s : string) : string :=
  match n, s with
  | O, _ => s
  | S n', String _ t => skip n' t
  | S _, EmptyString => EmptyString
  end.

(** [s.replace(needle, '')] for a string pattern: the first occurrence is
    removed. *)
Fixpoint remove_first (needle s : string) : string :=
  if String.prefix needle s then skip (String.length needle) s
  else
    match s with
    | EmptyString => EmptyString
    | String x t => String x (remove_first needle t)
    end.

(** [\d]. *)
Definition is_digit (c : ascii) : bool :=
  (48 <=? nat_of_ascii c)%nat && (nat_of_ascii c <=? 57)%nat.

(** The last nine characters of [s] match [-\d{8}], and also [-202\d{5}]
    when [year202] is set. *)
Definition ends_with_date (year202 : bool) (s : string) : bool :=
  (9 <=? String.length s)%nat
  && match substring (String.length s - 9) 9 s with
     | String "-" ds =>
         forallb is_digit (chars ds)
         && (if year202 then String.prefix "202" ds else true)
     | _ => false
     end.

(** [s.replace(/-202\d{5}$/, '')] and [s.replace(/-\d{8}$/, '')]. *)
Definition strip_date (year202 : bool) (s : string) : string :=
  if ends_with_date year202 s then substring 0 (String.length s - 9) s else s.

Definition modelShortName (id : string) : string :=
  strip_date false (strip_date true (remove_first "claude-" id)).

(** The text [ds] is eight decimal digits. *)
Definition eight_digits (ds : string) : Prop :=
  String.length ds = 8%nat ∧ forallb is_digit (chars ds) = true.

(** ** The project column of [generatePromptsHTML] (line 474) *)

(** [s.split(c)] for a separator that is the single character [c]. *)
Fixpoint split_on (c : ascii) (s : string) : list string :=
  match s with
  | EmptyString => [EmptyString]
  | String x t =>
      if decide (x = c) then EmptyString :: split_on c t
      else
        match split_on c t with
        | part :: parts => String x part :: parts
        | [] => [String x EmptyString]
        end
  end.

(** [parts.join(c)]. *)
Fixpoint join_with (c : ascii) (parts : list string) : string :=
  match parts with
  | [] => EmptyString
  | [part] => part
  | part :: rest => part +:+ String c (join_with c rest)
  end.

(** [p.project.split('/').slice(-2).join('/')]. *)
Definition projectLabel (project : string) : string :=
  let parts := split_on "/" project in
  join_with "/" (drop (length parts - 2) parts).

(** ** Facts about [JS.reduce] and [JS.sort] *)

Section reduce_facts.
Context {A : Type} (f : A → Z).

Lemma reduce_add_acc (l : list A) (a : Z) :
  JS.reduce (λ acc x, acc + f x) a l = a + Zsum f l.
Proof.
  unfold JS.reduce. revert a.
  induction l as [|x l IH]; intros a; simpl; [lia|].
  rewrite IH. lia.
Qed.

Lemma reduce_add_Zsum (l : list A) :
  JS.reduce (λ acc x, acc + f x) 0 l = Zsum f l.
Proof. rewrite reduce_add_acc. lia. Qed.

Lemma Zsum_perm (l l' : list A) : l ≡ₚ l' → Zsum f l = Zsum f l'.
Proof.
  induction 1 as [|x l l' _ IH|x y l|l l' l'' _ IH1 _ IH2]; simpl; lia.
Qed.
End reduce_facts.

Lemma Zsum_fmap {A B : Type} (g : A → B) (f : B → Z) (l : list A) :
  Zsum f (g <$> l) = Zsum (f ∘ g) l.
Proof. induction l as [|x l IH]; simpl; [done|]. f_equal. exact IH. Qed.

Section sort_facts.
Context {A : Type} (cmp : A → A → JS.num).

Lemma sort_insert_perm (x : A) (l : list A) : JS.sort_insert cmp x l ≡ₚ x :: l.
Proof.
  induction l as [|y l IH]; simpl; [done|].
  case_decide; [|done].
  rewrite IH. apply Permutation_swap.
Qed.

Lemma sort_perm (l : list A) : JS.sort cmp l ≡ₚ l.
Proof.
  induction l as [|x l IH]; simpl; [done|].
  rewrite sort_insert_perm. by rewrite IH.
Qed.

Lemma sort_length (l : list A) : length (JS.sort cmp l) = length l.
Proof. by rewrite sort_perm. Qed.

(** From here on the comparator is [(a, b) => key(b) - key(a)] on the
    elements at hand. *)
Context (key : A → Z).

Lemma by_key_cons_inv (x : A) (l : list A) : by_key cmp key (x :: l) → by_key cmp key l.
Proof. intros H a b Ha Hb. apply H; by right. Qed.

Lemma by_key_perm (l l' : list A) : l ≡ₚ l' → by_key cmp key l → by_key cmp key l'.
Proof. intros Hp H a b Ha Hb. apply H; by rewrite Hp. Qed.

Lemma sort_insert_descending (x : A) (l : list A) :
  by_key cmp key (x :: l) → descending key l → descending key (JS.sort_insert cmp x l).
Proof.
  unfold descending. intros Hk Hs.
  induction Hs as [|y l Hs IH Hy]; simpl.
  { repeat constructor. }
  assert (JS.sort_compare cmp x y = key y - key x) as Hxy.
  { apply Hk; [left|right; left]. }
  case_decide as Hlt.
  - constructor.
    + apply IH. intros a b Ha Hb. apply Hk.
      * apply elem_of_cons in Ha as [->|Ha]; [left|by do 2 right].
      * apply elem_of_cons in Hb as [->|Hb]; [left|by do 2 right].
    + rewrite sort_insert_perm. constructor; [lia|done].
  - constructor; [by constructor|].
    constructor; [lia|].
    eapply Forall_impl; [exact Hy|]. simpl. intros z Hz. lia.
Qed.

Lemma sort_descending (l : list A) : by_key cmp key l → descending key (JS.sort cmp l).
Proof.
  induction l as [|x l IH]; intros Hk; simpl.
  { constructor. }
  apply sort_insert_descending.
  - eapply by_key_perm; [|exact Hk]. by rewrite sort_perm.
  - apply IH. by eapply by_key_cons_inv.
Qed.

Lemma sort_insert_keeps_order (x : A) (l : list A) :
  by_key cmp key (x :: l) → keeps_order key (x :: l) (JS.sort_insert cmp x l).
Proof.
  intros Hk k. induction l as [|y l IH]; simpl; [done|].
  assert (JS.sort_compare cmp x y = key y - key x) as Hxy.
  { apply Hk; [left|right; left]. }
  case_decide as Hlt; [|done].
  rewrite (filter_cons _ y), (filter_cons _ x), (filter_cons _ y).
  rewrite IH.
  - rewrite (filter_cons _ x). repeat case_decide; try done; lia.
  - intros a b Ha Hb. apply Hk.
    + apply elem_of_cons in Ha as [->|Ha]; [left|by do 2 right].
    + apply elem_of_cons in Hb as [->|Hb]; [left|by do 2 right].
Qed.

Lemma sort_keeps_order (l : list A) : by_key cmp key l → keeps_order key l (JS.sort cmp l).
Proof.
  induction l as [|x l IH]; intros Hk k; simpl; [done|].
  rewrite sort_insert_keeps_order.
  - rewrite !filter_cons. rewrite IH; [done|]. by eapply by_key_cons_inv.
  - eapply by_key_perm; [|exact Hk]. by rewrite sort_perm.
Qed.
End sort_facts.


Lemma Zsum_ext {A : Type} (f g : A → Z) (l : list A) :
  (∀ x, f x = g x) → Zsum f l = Zsum g l.
Proof. intros E. induction l as [|x l IH]; simpl; [done|]. rewrite E. f_equal. exact IH. Qed.


(** The sum a [reduce] of lines 36-40 computes over [models] is the sum
    over the entries of [modelUsage]. *)
Lemma reduce_models (s : stats.t) (f : ModelAggregate → Z) :
  JS.reduce (λ acc m, acc + f m) 0 (models s) = Zsum (f ∘ aggregate) (stats.modelUsage s).
Proof.
  rewrite reduce_add_Zsum. unfold models.
  rewrite (Zsum_perm f _ _ (sort_perm by_total _)).
  apply Zsum_fmap.
Qed.

(** ** Model aggregator *)



(** ** Daily aggregator *)

Lemma busier_counted (max d : DayRecord) :
  is_Some (messageCount max) → is_Some (messageCount d) →
  busier max d = if decide (messages max < messages d) then d else max.
Proof.
  unfold busier, messages. intros [b Hb] [a Ha]. rewrite Ha, Hb. simpl.
  case_bool_decide; case_decide; done || lia.
Qed.

(** The scan of line 53 from an accumulator [acc]: either nothing beats
    [acc], or the result is the first record of the list that no record
    beats. *)
Lemma reduce_busier (l : list DayRecord) (acc : DayRecord) :
  counted (acc :: l) →
  (JS.reduce busier acc l = acc ∧ Forall (λ d, messages d ≤ messages acc) l)
  ∨ (∃ l1 l2, l = l1 ++ JS.reduce busier acc l :: l2
       ∧ messages acc < messages (JS.reduce busier acc l)
       ∧ Forall (λ d, messages d < messages (JS.reduce busier acc l)) l1
       ∧ Forall (λ d, messages d ≤ messages (JS.reduce busier acc l)) l2).
Proof.
  unfold JS.reduce. revert acc.
  induction l as [|d l IH]; intros acc Hc; simpl.
  { left. by split. }
  apply Forall_cons in Hc as [Hacc Hc].
  pose proof Hc as Hdl. apply Forall_cons in Hdl as [Hd Hl].
  rewrite (busier_counted acc d) by done.
  case_decide as Hlt.
  - right. destruct (IH d Hc) as [[-> Hle]|(l1 & l2 & El & Hdp & H1 & H2)].
    + exists [], l. split_and!; [done|done|constructor|done].
    + exists (d :: l1), l2. split_and!.
      * simpl. by f_equal.
      * lia.
      * by constructor.
      * done.
  - assert (counted (acc :: l)) as Hc' by by constructor.
    destruct (IH acc Hc') as [[-> Hle]|(l1 & l2 & El & Hdp & H1 & H2)].
    + left. split; [done|]. constructor; [lia|done].
    + right. exists (d :: l1), l2. split_and!.
      * simpl. by f_equal.
      * done.
      * constructor; [lia|done].
      * done.
Qed.

Lemma by_messages_by_key (l : list DayRecord) :
  counted l → by_key by_messages messages l.
Proof.
  unfold counted. rewrite Forall_forall. intros Hc x y Hx Hy.
  destruct (Hc x Hx) as [a Ha], (Hc y Hy) as [b Hb].
  unfold JS.sort_compare, by_messages, messages. by rewrite Ha, Hb.
Qed.



(** ** Cost estimator *)

Lemma costEstimateOf_RATES (a b c d : Z) :
  (costEstimateOf a b c d ==
   (inject_Z a * R_in RATES + inject_Z b * R_out RATES +
    inject_Z c * R_cacheRead RATES + inject_Z d * R_cacheCreate RATES) / 1000000)%Q.
Proof. reflexivity. Qed.

(** C5 (P5, cost linearity).  There is one rate table, chosen before any
    input, such that the cost of any four totals is the rate-weighted sum
    divided by 1,000,000; [costEstimate] is that cost at the four grand
    totals; doubling the four totals doubles the cost, and the cost of four
    zero totals is 0. *)
Theorem costEstimate_linear :
  ∃ R : RateTable,
    (∀ a b c d : Z,
       costEstimateOf a b c d ==
       (inject_Z a * R_in R + inject_Z b * R_out R +
        inject_Z c * R_cacheRead R + inject_Z d * R_cacheCreate R) / 1000000)%Q
    ∧ (∀ s : stats.t,
         costEstimate s ==
         (inject_Z (totalInput s) * R_in R + inject_Z (totalOutput s) * R_out R +
          inject_Z (totalCacheRead s) * R_cacheRead R +
          inject_Z (totalCacheCreate s) * R_cacheCreate R) / 1000000)%Q
    ∧ (∀ a b c d : Z,
         costEstimateOf (2 * a) (2 * b) (2 * c) (2 * d) == 2 * costEstimateOf a b c d)%Q
    ∧ (costEstimateOf 0 0 0 0 == 0)%Q.
Proof.
  exists RATES. split_and!.
  - apply costEstimateOf_RATES.
  - intros s. apply costEstimateOf_RATES.
  - intros a b c d. unfold costEstimateOf. rewrite !inject_Z_mult. field.
  - reflexivity.
Qed.

(** C6 as the specification states it fails: on the snapshot of Scenario A
    [costEstimate] is not 55. *)
Lemma scenario_A_cost_is_not_55 : ¬ (costEstimate scenario_A == 55)%Q.
Proof. vm_compute. discriminate. Qed.

(** C6 (Scenario A), amended.  The rates of line 43 are 15, 75, 1.5 and 3.75
    per million tokens, and on a snapshot whose [modelUsage] is the single
    entry of Scenario A [costEstimate] is
    (1000000*15 + 2000000*75)/1e6 = 165. *)
Theorem scenario_A_cost (s : stats.t) :
  stats.modelUsage s = stats.modelUsage scenario_A →
  (∀ a b c d : Z,
     costEstimateOf a b c d ==
     (inject_Z a * 15 + inject_Z b * 75 + inject_Z c * (3 # 2) + inject_Z d * (15 # 4))
     / 1000000)%Q
  ∧ (costEstimate s == (1000000 * 15 + 2000000 * 75) / 1000000)%Q
  ∧ (costEstimate s == 165)%Q.
Proof.
  intros E. split.
  { intros a b c d. unfold costEstimateOf. field. }
  assert (costEstimate s = costEstimate scenario_A) as ->.
  { unfold costEstimate, totalInput, totalOutput, totalCacheRead, totalCacheCreate,
      models. by rewrite E. }
  split; reflexivity.
Qed.

Lemma scenario_A_cost_witness :
  stats.modelUsage scenario_A = stats.modelUsage scenario_A
  ∧ (costEstimate scenario_A == 165)%Q.
Proof.
  split; [reflexivity|]. apply (scenario_A_cost scenario_A). reflexivity.
Defined.

(** ** Empty collections *)

(** C8 (P4, Scenario C, Scenario D).  With no day (the array empty or
    absent) [peakDay] is the sentinel with date N/A and 0 messages,
    [topDays] is empty and [maxDailyMsg] is 1; with no hour [maxHourCount]
    is 1; with no model [models] is empty and [totalTokens] and
    [costEstimate] are 0.  Every function involved is total. *)
Theorem empty_collections (s : stats.t) :
  (daily s = [] →
     peakDay s = {| date := "N/A"; messageCount := Some 0;
                    sessionCount := None; toolCallCount := None |}
     ∧ topDays s = []
     ∧ maxDailyMsg s = JS.Int 1)
  ∧ (hourCounts s = ∅ → maxHourCount s = JS.Int 1)
  ∧ (stats.modelUsage s = [] →
     models s = [] ∧ totalTokens s = 0 ∧ (costEstimate s == 0)%Q).
Proof.
  split_and!.
  - intros E. unfold peakDay, topDays, maxDailyMsg. by rewrite E.
  - intros E. unfold maxHourCount, hourValues. rewrite E.
    by rewrite map_to_list_empty.
  - intros E.
    unfold costEstimate, totalTokens, totalInput, totalOutput, totalCacheRead,
      totalCacheCreate, models.
    rewrite E. by split_and!.
Qed.

Lemma empty_collections_witness :
  peakDay empty_stats = sentinel ∧ maxHourCount empty_stats = JS.Int 1
  ∧ models empty_stats = [].
Proof.
  pose proof (empty_collections empty_stats) as (H1 & H2 & H3).
  split_and!.
  - apply H1. reflexivity.
  - apply H2. reflexivity.
  - apply H3. reflexivity.
Defined.

(** ** Lifetime counters *)


(** ** Percentages *)

Section string_facts.
Lemma append_cons (x : ascii) (a b : string) :
  String x a +:+ b = String x (a +:+ b).
Proof. reflexivity. Qed.

Lemma append_nil (b : string) : EmptyString +:+ b = b.
Proof. reflexivity. Qed.

Lemma length_append (a b : string) :
  String.length (a +:+ b) = (String.length a + String.length b)%nat.
Proof.
  induction a as [|c a IH]; [done|].
  rewrite append_cons. simpl. by rewrite IH.
Qed.

Lemma append_assoc (a b c : string) : (a +:+ b) +:+ c = a +:+ (b +:+ c).
Proof.
  induction a as [|x a IH]; [done|].
  rewrite !append_cons. by rewrite IH.
Qed.

Lemma substring_append_l (a b : string) :
  substring 0 (String.length a) (a +:+ b) = a.
Proof.
  induction a as [|c a IH]; [by destruct b|].
  rewrite append_cons. simpl. by rewrite IH.
Qed.

Lemma substring_append_r (a b : string) (n : nat) :
  substring (String.length a) n (a +:+ b) = substring 0 n b.
Proof.
  induction a as [|c a IH]; [done|].
  rewrite append_cons. simpl. exact IH.
Qed.
End string_facts.

Section pretty_facts.
Lemma pretty_N_go_append (x : N) (s : string) :
  pretty_N_go x s = pretty_N_go x EmptyString +:+ s.
Proof.
  revert s. induction (N.lt_wf_0 x) as [x _ IH]; intros s.
  destruct (decide (x = 0)%N) as [->|Hx].
  { by rewrite !pretty_N_go_0. }
  rewrite !(pretty_N_go_step x) by lia.
  assert (x `div` 10 < x)%N as Hlt by (apply N.div_lt; lia).
  rewrite (IH _ Hlt (String (pretty_N_char (x `mod` 10)) s)).
  rewrite (IH _ Hlt (String (pretty_N_char (x `mod` 10)) EmptyString)).
  by rewrite append_assoc.
Qed.

Lemma pretty_N_digit (x : N) :
  (x < 10)%N → pretty x = String (pretty_N_char x) EmptyString.
Proof.
  intros Hx.
  assert (x = 0 ∨ x = 1 ∨ x = 2 ∨ x = 3 ∨ x = 4 ∨ x = 5 ∨ x = 6 ∨ x = 7
          ∨ x = 8 ∨ x = 9)%N as H by lia.
  repeat (destruct H as [->|H]; [reflexivity|]). by subst.
Qed.

Lemma pretty_N_snoc (x : N) :
  (10 ≤ x)%N → pretty x = pretty (x `div` 10)%N +:+ pretty (x `mod` 10)%N.
Proof.
  intros Hx.
  assert (0 < x `div` 10)%N as Hq by (apply N.div_str_pos; lia).
  rewrite (pretty_N_digit (x `mod` 10)) by (apply N.mod_lt; lia).
  unfold pretty at 1 2, pretty_N.
  rewrite !decide_False by lia.
  rewrite pretty_N_go_step by lia.
  apply pretty_N_go_append.
Qed.

Lemma pretty_N_nonempty (x : N) : (1 ≤ String.length (pretty x))%nat.
Proof.
  destruct (decide (x < 10)%N) as [Hx|Hx].
  - rewrite pretty_N_digit by done. simpl. lia.
  - rewrite pretty_N_snoc, length_append by lia.
    rewrite (pretty_N_digit (x `mod` 10)) by (apply N.mod_lt; lia).
    simpl. lia.
Qed.
End pretty_facts.

(** With one fraction digit the steps of [toFixed] print the integer part,
    a point and the last digit. *)
Lemma digits_one_decimal (n : Z) : 0 ≤ n → JS.digits 1 n = one_decimal n.
Proof.
  intros Hn. destruct (decide (n < 10)) as [Hlt|Hge].
  - assert (n = 0 ∨ n = 1 ∨ n = 2 ∨ n = 3 ∨ n = 4 ∨ n = 5 ∨ n = 6 ∨ n = 7
            ∨ n = 8 ∨ n = 9) as H by lia.
    repeat (destruct H as [->|H]; [reflexivity|]). by subst.
  - unfold JS.digits, one_decimal.
    rewrite (decide_False (P := n = 0)) by lia.
    rewrite (decide_False (P := 1%nat = 0%nat)) by lia.
    rewrite Z2N.inj_div, Z2N.inj_mod by lia.
    change (Z.to_N 10) with 10%N.
    assert (10 ≤ Z.to_N n)%N as Hx by lia.
    rewrite (pretty_N_snoc (Z.to_N n) Hx).
    set (a := pretty (Z.to_N n `div` 10)%N).
    assert (pretty (Z.to_N n `mod` 10)%N =
            String (pretty_N_char (Z.to_N n `mod` 10)) EmptyString) as ->
      by (apply pretty_N_digit, N.mod_lt; lia).
    set (c := pretty_N_char (Z.to_N n `mod` 10)).
    pose proof (pretty_N_nonempty (Z.to_N n `div` 10)) as Ha. fold a in Ha.
    rewrite length_append. simpl String.length.
    rewrite !(decide_False (P := (String.length a + 1 ≤ 1)%nat)) by lia.
    replace (String.length a + 1 - 1)%nat with (String.length a) by lia.
    by rewrite substring_append_l, substring_append_r.
Qed.

Section ratio_facts.
Context (part whole : Z) (Hw : whole ≠ 0).







End ratio_facts.



(** ** Days with absent counters *)

Lemma daily_zero_filled (s : stats.t) : daily (zero_filled s) = zero_fill <$> daily s.
Proof. unfold daily, zero_filled. simpl. by destruct (stats.dailyActivity s). Qed.

(** Line 48 reads [d.toolCallCount || 0]: an absent [toolCallCount] counts
    as 0. *)
Lemma totalToolCalls_zero_filled (s : stats.t) :
  totalToolCalls (zero_filled s) = totalToolCalls s.
Proof.
  unfold totalToolCalls. rewrite daily_zero_filled, !reduce_add_Zsum.
  by rewrite Zsum_fmap.
Qed.

(** C9, the code at a day without counters.  Lines 46, 47 and 53 read
    [d.messageCount] and [d.sessionCount] without the [|| 0] of line 48: on
    [sparse_stats] the two derived totals are [NaN] and [peakDay] is the
    first day, while with the absent counters written as 0 they are 5, 1
    and the second day.  [totalToolCalls] is 2 either way. *)
Theorem absent_day_counters :
  totalMessages sparse_stats = JS.NaN
  ∧ totalMessages (zero_filled sparse_stats) = JS.Int 5
  ∧ totalSessions sparse_stats = JS.NaN
  ∧ totalSessions (zero_filled sparse_stats) = JS.Int 1
  ∧ date (peakDay sparse_stats) = "2026-01-01"
  ∧ date (peakDay (zero_filled sparse_stats)) = "2026-01-02"
  ∧ totalToolCalls sparse_stats = 2
  ∧ totalToolCalls (zero_filled sparse_stats) = 2.
Proof. by split_and!. Qed.

(** ** Further properties of the metrics block *)

Lemma Math_max_ints (vs : list Z) (last : Z) :
  JS.Math_max (Some <$> vs) last = JS.Int (foldr Z.max last vs).
Proof.
  induction vs as [|v vs IH]; [done|].
  rewrite fmap_cons.
  change (JS.Math_max (Some v :: (Some <$> vs)) last)
    with (match JS.Math_max (Some <$> vs) last with
          | JS.Int b => JS.Int (Z.max v b)
          | JS.NaN => JS.NaN
          end).
  by rewrite IH.
Qed.

Lemma foldr_max_ge_last (vs : list Z) (last : Z) : last ≤ foldr Z.max last vs.
Proof. induction vs as [|v vs IH]; simpl; lia. Qed.

Lemma foldr_max_ge_elem (vs : list Z) (last v : Z) :
  v ∈ vs → v ≤ foldr Z.max last vs.
Proof.
  induction vs as [|w vs IH]; simpl; intros Hv.
  { by apply elem_of_nil in Hv. }
  apply elem_of_cons in Hv as [->|Hv]; [lia|].
  specialize (IH Hv). lia.
Qed.

Lemma foldr_max_attained (vs : list Z) (last : Z) :
  foldr Z.max last vs = last ∨ foldr Z.max last vs ∈ vs.
Proof.
  induction vs as [|w vs IH]; simpl; [by left|].
  destruct (Z.max_spec w (foldr Z.max last vs)) as [[_ ->]|[_ ->]].
  - destruct IH as [IH|IH]; [by left|right; by right].
  - right. left.
Qed.

Lemma hourValues_ints (s : stats.t) :
  hourValues s = Some <$> (map_to_list (hourCounts s)).*2.
Proof. unfold hourValues. by rewrite <-list_fmap_compose. Qed.

(** X1.  [maxHourCount] is always an integer, at least 1 and at least every
    count of [hourCounts] (whatever its keys), and it is 1 or one of the
    counts: dividing by it is safe. *)
Theorem maxHourCount_bounds (s : stats.t) :
  ∃ n : Z,
    maxHourCount s = JS.Int n
    ∧ 1 ≤ n
    ∧ (∀ k v, hourCounts s !! k = Some v → v ≤ n)
    ∧ (n = 1 ∨ ∃ k, hourCounts s !! k = Some n).
Proof.
  exists (foldr Z.max 1 (map_to_list (hourCounts s)).*2).
  split_and!.
  - unfold maxHourCount. by rewrite hourValues_ints, Math_max_ints.
  - apply foldr_max_ge_last.
  - intros k v Hk. apply foldr_max_ge_elem.
    apply list_elem_of_fmap. exists (k, v). split; [done|].
    by apply elem_of_map_to_list.
  - destruct (foldr_max_attained (map_to_list (hourCounts s)).*2 1) as [H|H];
      [by left|right].
    apply list_elem_of_fmap in H as ([k v] & Ev & Hin). simpl in Ev.
    exists k. rewrite Ev. by apply elem_of_map_to_list.
Qed.

Lemma counted_messageCount (l : list DayRecord) :
  counted l → messageCount <$> l = Some <$> (messages <$> l).
Proof.
  unfold counted. induction 1 as [|d l [c Hc] _ IH]; [done|].
  rewrite !fmap_cons, IH. f_equal. unfold messages. by rewrite Hc.
Qed.

(** On a list of counted days [peakDay] is a day of the list with the
    largest number of messages. *)
Lemma peakDay_maximum (s : stats.t) :
  daily s ≠ [] → counted (daily s) →
  peakDay s ∈ daily s ∧ Forall (λ d, messages d ≤ messages (peakDay s)) (daily s).
Proof.
  intros Hne Hc. unfold peakDay.
  destruct (daily s) as [|d0 rest] eqn:E; [done|].
  assert (JS.reduce busier d0 (d0 :: rest) = JS.reduce busier d0 rest) as ->.
  { unfold JS.reduce. simpl. apply Forall_cons in Hc as [Hd0 _].
    rewrite (busier_counted d0 d0) by done. by rewrite decide_False by lia. }
  destruct (reduce_busier rest d0 Hc) as [[-> Hle]|(l1 & l2 & El & Hdp & H1 & H2)].
  - split; [left|]. constructor; [lia|done].
  - remember (JS.reduce busier d0 rest) as p eqn:Ep. clear Ep. subst rest.
    split.
    + right. apply elem_of_app. right. left.
    + constructor; [lia|].
      apply Forall_app. split.
      * eapply Forall_impl; [exact H1|]. simpl. intros; lia.
      * constructor; [lia|done].
Qed.

(** The largest count of a list of counted days, floored at 1, is the
    count of [peakDay] floored at 1. *)
Lemma foldr_max_peakDay (s : stats.t) :
  counted (daily s) →
  foldr Z.max 1 (messages <$> daily s) = Z.max (messages (peakDay s)) 1.
Proof.
  intros Hc.
  destruct (decide (daily s = [])) as [E|Hne].
  { unfold peakDay. by rewrite E. }
  destruct (peakDay_maximum s Hne Hc) as [Hin Hle].
  pose proof (foldr_max_ge_last (messages <$> daily s) 1) as H1.
  assert (messages (peakDay s) ≤ foldr Z.max 1 (messages <$> daily s)) as H2.
  { apply foldr_max_ge_elem, list_elem_of_fmap. by exists (peakDay s). }
  destruct (foldr_max_attained (messages <$> daily s) 1) as [H3|H3]; [lia|].
  apply list_elem_of_fmap in H3 as (d & Ed & Hd).
  rewrite Forall_forall in Hle. specialize (Hle d Hd). lia.
Qed.

(** X2.  When every day has its [messageCount], the denominator of the
    daily chart is the number of messages of [peakDay], or 1 if that is
    less: lines 53 and 187 agree on the busiest day. *)
Theorem maxDailyMsg_peakDay (s : stats.t) :
  counted (daily s) →
  maxDailyMsg s = JS.Int (Z.max (messages (peakDay s)) 1).
Proof.
  intros Hc. unfold maxDailyMsg.
  rewrite (counted_messageCount _ Hc), Math_max_ints.
  by rewrite foldr_max_peakDay.
Qed.

Lemma counted_scenario_B : counted (daily scenario_B).
Proof. repeat constructor; by eexists. Qed.

Lemma maxDailyMsg_peakDay_witness : maxDailyMsg scenario_B = JS.Int 50.
Proof. apply (maxDailyMsg_peakDay scenario_B). repeat constructor; by eexists. Defined.

Lemma filter_none {A : Type} (P : A → Prop) `{!∀ x, Decision (P x)} (l : list A) :
  Forall (λ x, ¬ P x) l → filter P l = [].
Proof.
  induction 1 as [|x l Hx _ IH]; [done|].
  by rewrite filter_cons, decide_False.
Qed.

(** X3.  When every day has its [messageCount], the first row of the
    top-five list is [peakDay]: the stable sort of line 56 and the scan of
    line 53 pick the same day among days of equal count. *)
Theorem topDays_head_peakDay (s : stats.t) :
  daily s ≠ [] → counted (daily s) → head (topDays s) = Some (peakDay s).
Proof.
  intros Hne Hc.
  pose proof (by_messages_by_key _ Hc) as Hk.
  pose proof (sort_descending by_messages messages _ Hk) as Hd.
  pose proof (sort_keeps_order by_messages messages _ Hk) as Ho.
  pose proof (sort_perm by_messages (daily s)) as Hp.
  destruct (peakDay_maximum s Hne Hc) as [Hin Hle].
  unfold topDays.
  destruct (JS.sort by_messages (daily s)) as [|h t] eqn:Es.
  { apply Permutation_nil_l in Hp. by symmetry in Hp. }
  simpl. f_equal.
  assert (messages h = messages (peakDay s)) as Eh.
  { apply StronglySorted_inv in Hd as [_ Hh].
    rewrite Forall_forall in Hh, Hle.
    assert (h ∈ daily s) as Hh' by (rewrite <-Hp; left).
    assert (peakDay s ∈ h :: t) as Hp' by by rewrite Hp.
    specialize (Hle h Hh').
    apply elem_of_cons in Hp' as [->|Hp']; [done|].
    specialize (Hh _ Hp'). simpl in Hh. lia. }
  specialize (Ho (messages h)).
  rewrite filter_cons, decide_True in Ho by done.
  (* the first day of [daily s] with that count is [peakDay s] *)
  revert Ho. unfold peakDay in *.
  destruct (daily s) as [|d0 rest] eqn:E; [done|].
  assert (JS.reduce busier d0 (d0 :: rest) = JS.reduce busier d0 rest) as Er.
  { unfold JS.reduce. simpl. apply Forall_cons in Hc as [Hd0 _].
    rewrite (busier_counted d0 d0) by done. by rewrite decide_False by lia. }
  rewrite Er in *.
  destruct (reduce_busier rest d0 Hc) as [[Ep Hle']|(l1 & l2 & El & Hdp & H1 & H2)].
  - rewrite Ep in *. rewrite filter_cons, decide_True by done. by intros [= ->].
  - remember (JS.reduce busier d0 rest) as p eqn:Ep. clear Ep Er. subst rest.
    rewrite filter_cons, decide_False by lia.
    rewrite filter_app, filter_cons, decide_True by done.
    assert (filter (λ a, messages a = messages h) l1 = []) as ->.
    { apply filter_none. eapply Forall_impl; [exact H1|]. simpl. intros; lia. }
    by intros [= ->].
Qed.

Lemma topDays_head_peakDay_witness :
  head (topDays scenario_B) = Some (peakDay scenario_B).
Proof.
  apply (topDays_head_peakDay scenario_B); [discriminate|].
  repeat constructor; by eexists.
Defined.

(** ** Token breakdown and cost *)

Lemma Zsum_add {A : Type} (f g : A → Z) (l : list A) :
  Zsum (λ x, f x + g x) l = Zsum f l + Zsum g l.
Proof.
  induction l as [|x l IH]; [done|].
  change (f x + g x + Zsum (λ x, f x + g x) l = f x + Zsum f l + (g x + Zsum g l)).
  rewrite IH. lia.
Qed.

Lemma Zsum_nonneg {A : Type} (f : A → Z) (l : list A) :
  Forall (λ x, 0 ≤ f x) l → 0 ≤ Zsum f l.
Proof.
  induction 1 as [|x l Hx _ IH]; [done|].
  change (0 ≤ f x + Zsum f l). lia.
Qed.


Lemma totalTokens_sum (s : stats.t) :
  totalTokens s = totalInput s + totalOutput s + totalCacheRead s + totalCacheCreate s.
Proof.
  unfold totalTokens, totalInput, totalOutput, totalCacheRead, totalCacheCreate.
  rewrite (reduce_models s total).
  rewrite (reduce_models s (λ m, JS.or_zero (inputTokens (usage m)))).
  rewrite (reduce_models s (λ m, JS.or_zero (outputTokens (usage m)))).
  rewrite (reduce_models s (λ m, JS.or_zero (cacheReadInputTokens (usage m)))).
  rewrite (reduce_models s (λ m, JS.or_zero (cacheCreationInputTokens (usage m)))).
  rewrite <-!Zsum_add. apply Zsum_ext. by intros [id u].
Qed.

Lemma totals_nonneg (s : stats.t) :
  nonneg_usage s →
  0 ≤ totalInput s ∧ 0 ≤ totalOutput s ∧ 0 ≤ totalCacheRead s ∧ 0 ≤ totalCacheCreate s.
Proof.
  unfold nonneg_usage, totalInput, totalOutput, totalCacheRead, totalCacheCreate.
  intros H.
  rewrite (reduce_models s (λ m, JS.or_zero (inputTokens (usage m)))).
  rewrite (reduce_models s (λ m, JS.or_zero (outputTokens (usage m)))).
  rewrite (reduce_models s (λ m, JS.or_zero (cacheReadInputTokens (usage m)))).
  rewrite (reduce_models s (λ m, JS.or_zero (cacheCreationInputTokens (usage m)))).
  split_and!; apply Zsum_nonneg; (eapply Forall_impl; [exact H|]);
    intros [id u]; simpl; tauto.
Qed.


Lemma costEstimateOf_quarters (a b c d : Z) :
  (costEstimateOf a b c d == inject_Z (60 * a + 300 * b + 6 * c + 15 * d) / 4000000)%Q.
Proof.
  unfold costEstimateOf. rewrite !inject_Z_plus, !inject_Z_mult.
  change (inject_Z 60) with 60%Q. change (inject_Z 300) with 300%Q.
  change (inject_Z 6) with 6%Q. change (inject_Z 15) with 15%Q.
  field.
Qed.

(** X5.  With non-negative counters the estimate is at least the cheapest
    rate (1.5 per million) and at most the dearest (75 per million) applied
    to all of [totalTokens]; in particular it is never negative. *)
Theorem costEstimate_bounds (s : stats.t) :
  nonneg_usage s →
  (0 <= costEstimate s)%Q
  ∧ (inject_Z (totalTokens s) * 1.5 / 1000000 <= costEstimate s)%Q
  ∧ (costEstimate s <= inject_Z (totalTokens s) * 75 / 1000000)%Q.
Proof.
  intros H. destruct (totals_nonneg s H) as (Ha & Hb & Hc & Hd).
  rewrite (totalTokens_sum s). unfold costEstimate.
  rewrite costEstimateOf_quarters.
  set (a := totalInput s) in *. set (b := totalOutput s) in *.
  set (c := totalCacheRead s) in *. set (d := totalCacheCreate s) in *.
  split_and!.
  - apply Qle_shift_div_l; [done|]. rewrite Qmult_0_l, <-(Zle_Qle 0). lia.
  - apply Qle_shift_div_l; [done|].
    assert (inject_Z (a + b + c + d) * 1.5 / 1000000 * 4000000
            == inject_Z (6 * (a + b + c + d)))%Q as ->.
    { rewrite inject_Z_mult. change (inject_Z 6) with 6%Q. field. }
    rewrite <-Zle_Qle. lia.
  - apply Qle_shift_div_r; [done|].
    assert (inject_Z (a + b + c + d) * 75 / 1000000 * 4000000
            == inject_Z (300 * (a + b + c + d)))%Q as ->.
    { rewrite inject_Z_mult. change (inject_Z 300) with 300%Q. field. }
    rewrite <-Zle_Qle. lia.
Qed.

Lemma costEstimate_bounds_witness :
  (inject_Z (totalTokens scenario_A) * 1.5 / 1000000 <= costEstimate scenario_A)%Q.
Proof.
  apply (costEstimate_bounds scenario_A).
  constructor; [simpl; lia|constructor].
Defined.

(** ** Model rows *)






(** ** Derived totals and the daily average *)












(** ** Chart bars *)

Lemma barHeight_bounds (c m : Z) :
  1 ≤ m → c ≤ m →
  ∃ h, barHeight (Some c) (JS.Int m) = Some h ∧ (1 <= h)%Q ∧ (h <= 100)%Q
       ∧ (c ≤ 0 → h = 1%Q) ∧ (c = m → h == 100)%Q.
Proof.
  intros Hm Hc. unfold barHeight.
  set (x := (inject_Z c / inject_Z m * 100)%Q).
  assert (0 < inject_Z m)%Q as Hm' by (rewrite <-(Zlt_Qlt 0); lia).
  assert (x == inject_Z (c * 100) / inject_Z m)%Q as Ex.
  { unfold x. rewrite inject_Z_mult. change (inject_Z 100) with 100%Q.
    field. intros H. rewrite H in Hm'. by apply Qlt_irrefl in Hm'. }
  assert (x <= 100)%Q as Hx.
  { rewrite Ex. apply Qle_shift_div_r; [done|].
    change 100%Q with (inject_Z 100). rewrite <-inject_Z_mult, <-Zle_Qle. lia. }
  destruct (Qle_bool 1 x) eqn:E.
  - apply Qle_bool_iff in E. exists x. split_and!; try done.
    + intros Hc0. exfalso. apply (Qlt_irrefl 1).
      eapply Qle_lt_trans; [exact E|]. rewrite Ex.
      apply Qlt_shift_div_r; [done|]. rewrite Qmult_1_l, <-Zlt_Qlt. lia.
    + intros ->. rewrite Ex, inject_Z_mult. change (inject_Z 100) with 100%Q.
      field. intros H. rewrite H in Hm'. by apply Qlt_irrefl in Hm'.
  - exists 1%Q. split_and!; try done.
    intros ->. exfalso. apply not_true_iff_false in E. apply E.
    apply Qle_bool_iff. rewrite Ex. apply Qle_shift_div_l; [done|].
    rewrite Qmult_1_l, <-Zle_Qle. lia.
Qed.

(** X10.  The hour chart always has 24 bars, for the hours 0 to 23 in
    order, whatever keys [hourCounts] has; each bar is between 1 and 100
    percent high, and the bar of an hour without messages is 1 percent
    high. *)
Theorem hourBars_heights (s : stats.t) :
  (hourBars s).*1 = seq 0 24
  ∧ Forall (λ b, ∃ h, b.2 = Some h ∧ (1 <= h)%Q ∧ (h <= 100)%Q
                      ∧ (hourCount s b.1 ≤ 0 → h = 1%Q)) (hourBars s).
Proof.
  unfold hourBars. split.
  { rewrite <-list_fmap_compose. apply list_fmap_id. }
  set (n := foldr Z.max 1 (map_to_list (hourCounts s)).*2).
  assert (maxHourCount s = JS.Int n) as En.
  { unfold maxHourCount. by rewrite hourValues_ints, Math_max_ints. }
  assert (1 ≤ n) as Hn by apply foldr_max_ge_last.
  apply Forall_fmap, Forall_forall. intros h _. simpl. rewrite En.
  assert (hourCount s h ≤ n) as Hc.
  { unfold hourCount. destruct (hourCounts s !! pretty (N.of_nat h)) as [v|] eqn:E.
    - simpl. apply foldr_max_ge_elem, list_elem_of_fmap.
      exists (pretty (N.of_nat h), v). split; [done|]. by apply elem_of_map_to_list.
    - simpl. lia. }
  destruct (barHeight_bounds _ _ Hn Hc) as (x & Ex & H1 & H2 & H3 & _).
  by exists x.
Qed.

(** X11.  When every day has its [messageCount], each bar of the daily
    chart is between 1 and 100 percent high, a day without messages has a
    bar of 1 percent, and the bar of [peakDay] is 100 percent high as soon
    as that day has a message. *)
Theorem dailyBars_heights (s : stats.t) :
  counted (daily s) →
  Forall (λ d, ∃ h, dailyBarHeight s d = Some h ∧ (1 <= h)%Q ∧ (h <= 100)%Q
                    ∧ (messages d ≤ 0 → h = 1%Q)) (daily s)
  ∧ (1 ≤ messages (peakDay s) →
     ∃ h, dailyBarHeight s (peakDay s) = Some h ∧ (h == 100)%Q).
Proof.
  intros Hc. unfold dailyBarHeight, maxDailyMsg.
  rewrite (counted_messageCount _ Hc), Math_max_ints, foldr_max_peakDay by done.
  split.
  - destruct (decide (daily s = [])) as [->|Hne]; [constructor|].
    destruct (peakDay_maximum s Hne Hc) as [_ Hle].
    rewrite Forall_forall in Hle. unfold counted in Hc. rewrite Forall_forall in Hc.
    apply Forall_forall. intros d Hd.
    destruct (Hc d Hd) as [c Ec]. specialize (Hle d Hd).
    unfold messages in Hle |- *. rewrite Ec in Hle |- *. simpl in *.
    destruct (barHeight_bounds c (Z.max (JS.or_zero (messageCount (peakDay s))) 1))
      as (x & Ex & H1 & H2 & H3 & _); [lia..|].
    by exists x.
  - intros Hp.
    assert (is_Some (messageCount (peakDay s))) as [c Ec].
    { unfold messages in Hp. destruct (messageCount (peakDay s)); [by eexists|].
      simpl in Hp. lia. }
    unfold messages in Hp |- *. rewrite Ec in Hp |- *. simpl in *.
    rewrite Z.max_l by lia.
    destruct (barHeight_bounds c c) as (x & Ex & _ & _ & _ & H4); [lia..|].
    exists x. split; [done|]. by apply H4.
Qed.

Lemma dailyBars_heights_witness :
  ∃ h, dailyBarHeight scenario_B (peakDay scenario_B) = Some h ∧ (h == 100)%Q.
Proof.
  apply (dailyBars_heights scenario_B).
  - repeat constructor; by eexists.
  - vm_compute. discriminate.
Defined.

Lemma NoDup_fmap_eq {A B : Type} (f : A → B) (l : list A) (x y : A) :
  NoDup (f <$> l) → x ∈ l → y ∈ l → f x = f y → x = y.
Proof.
  induction l as [|z l IH]; intros Hnd Hx Hy E.
  { by apply elem_of_nil in Hx. }
  rewrite fmap_cons in Hnd. apply NoDup_cons in Hnd as [Hz Hnd].
  apply elem_of_cons in Hx as [->|Hx]; apply elem_of_cons in Hy as [->|Hy];
    try done.
  - destruct Hz. rewrite E. apply list_elem_of_fmap. by exists y.
  - destruct Hz. rewrite <-E. apply list_elem_of_fmap. by exists x.
  - by apply IH.
Qed.

Lemma topDays_sublist_perm (s : stats.t) :
  ∃ rest, topDays s ++ rest ≡ₚ daily s.
Proof.
  exists (drop 5 (JS.sort by_messages (daily s))). unfold topDays.
  by rewrite take_drop, sort_perm.
Qed.

Lemma isTop5_true (s : stats.t) (d : DayRecord) :
  isTop5 s d = true ↔ ∃ t, t ∈ topDays s ∧ date t = date d.
Proof.
  unfold isTop5. rewrite existsb_exists. split.
  - intros (t & Ht & E). exists t. split; [by apply list_elem_of_In|].
    by apply bool_decide_eq_true in E.
  - intros (t & Ht & E). exists t. split; [by apply list_elem_of_In|].
    by apply bool_decide_eq_true.
Qed.

(** X12.  Every day of [topDays] is highlighted in the daily chart.  When
    the dates of [dailyActivity] are pairwise distinct, the highlighted
    days are exactly the days of [topDays], so [min 5 n] bars are
    highlighted. *)
Theorem isTop5_highlights (s : stats.t) :
  (∀ d, d ∈ topDays s → isTop5 s d = true)
  ∧ (NoDup (date <$> daily s) →
     (∀ d, d ∈ daily s → (isTop5 s d = true ↔ d ∈ topDays s))
     ∧ length (filter (λ d, isTop5 s d = true) (daily s)) = min 5 (length (daily s))).
Proof.
  split.
  { intros d Hd. apply isTop5_true. by exists d. }
  intros Hnd.
  destruct (topDays_sublist_perm s) as [rest Hp].
  assert (∀ t, t ∈ topDays s → t ∈ daily s) as Hsub.
  { intros t Ht. rewrite <-Hp. apply elem_of_app. by left. }
  assert (∀ d, d ∈ daily s → (isTop5 s d = true ↔ d ∈ topDays s)) as Hiff.
  { intros d Hd. rewrite isTop5_true. split.
    - intros (t & Ht & E).
      by rewrite <-(NoDup_fmap_eq date (daily s) t d Hnd (Hsub t Ht) Hd E).
    - intros Ht. by exists d. }
  split; [done|].
  assert (NoDup (daily s)) as Hnd' by by eapply NoDup_fmap_1.
  assert (NoDup (topDays s)) as Hndt.
  { rewrite <-Hp in Hnd'. by apply NoDup_app in Hnd' as [? _]. }
  assert (filter (λ d, isTop5 s d = true) (daily s) ≡ₚ topDays s) as ->.
  { apply NoDup_Permutation; [by apply NoDup_filter|done|].
    intros d. rewrite list_elem_of_filter. split.
    - intros [Ht Hd]. by apply Hiff.
    - intros Ht. split; [|by apply Hsub]. apply Hiff; [by apply Hsub|done]. }
  unfold topDays. by rewrite length_take, sort_length.
Qed.

Lemma isTop5_highlights_witness :
  length (filter (λ d, isTop5 scenario_B d = true) (daily scenario_B)) = 2%nat.
Proof.
  apply (isTop5_highlights scenario_B). simpl.
  apply NoDup_cons. split; [|apply NoDup_singleton].
  intros H. apply list_elem_of_singleton in H. discriminate.
Defined.

(** ** [escapeHtml] *)

Lemma replace_all_append (c : ascii) (r a b : string) :
  replace_all c r (a +:+ b) = replace_all c r a +:+ replace_all c r b.
Proof.
  induction a as [|x a IH]; [done|].
  rewrite append_cons. simpl. case_decide.
  - by rewrite IH, append_assoc.
  - by rewrite IH, append_cons.
Qed.

Lemma replace_all_cons_ne (c x : ascii) (r s : string) :
  x ≠ c → replace_all c r (String x s) = String x (replace_all c r s).
Proof. intros H. simpl. by rewrite decide_False. Qed.

Lemma escapeHtml_cons (x : ascii) (s : string) :
  escapeHtml (String x s) = escape_char x +:+ escapeHtml s.
Proof.
  unfold escapeHtml, escape_char.
  destruct (decide (x = "&"%char)) as [->|H1].
  { change (replace_all "&" "&amp;" (String "&" s))
      with ("&amp;" +:+ replace_all "&" "&amp;" s).
    by rewrite !replace_all_append. }
  rewrite (replace_all_cons_ne "&") by done.
  destruct (decide (x = "<"%char)) as [->|H2].
  { change (replace_all "<" "&lt;" (String "<" ?t))
      with ("&lt;" +:+ replace_all "<" "&lt;" t).
    by rewrite !replace_all_append. }
  rewrite (replace_all_cons_ne "<") by done.
  destruct (decide (x = ">"%char)) as [->|H3].
  { change (replace_all ">" "&gt;" (String ">" ?t))
      with ("&gt;" +:+ replace_all ">" "&gt;" t).
    by rewrite !replace_all_append. }
  rewrite (replace_all_cons_ne ">") by done.
  destruct (decide (x = "034"%char)) as [->|H4].
  { done. }
  by rewrite (replace_all_cons_ne "034") by done.
Qed.

(** X13.  The four passes act as one pass over the characters: no
    replacement text is escaped again by a later pass, and escaping a
    concatenation is concatenating the escaped parts. *)
Theorem escapeHtml_append (a b : string) :
  escapeHtml (a +:+ b) = escapeHtml a +:+ escapeHtml b
  ∧ ∀ x, escapeHtml (String x a) = escape_char x +:+ escapeHtml a.
Proof.
  split; [|intros x; apply escapeHtml_cons].
  induction a as [|x a IH]; [done|].
  by rewrite append_cons, !escapeHtml_cons, IH, append_assoc.
Qed.

Lemma chars_append (a b : string) : chars (a +:+ b) = chars a ++ chars b.
Proof.
  unfold chars. induction a as [|x a IH]; [done|].
  rewrite append_cons. simpl. by rewrite IH.
Qed.

Lemma escape_char_safe (x y : ascii) :
  y ∈ chars (escape_char x) → y ≠ "<"%char ∧ y ≠ ">"%char ∧ y ≠ "034"%char.
Proof.
  unfold escape_char. repeat case_decide; subst; simpl; intros Hy.
  1-4: repeat (apply elem_of_cons in Hy as [->|Hy]; [done|]);
       by apply elem_of_nil in Hy.
  apply list_elem_of_singleton in Hy as ->. done.
Qed.

(** X14.  The escaped text contains no [<], no [>] and no double quote: it
    cannot open or close a tag or an attribute of the page it is put in. *)
Theorem escapeHtml_safe (s : string) (y : ascii) :
  y ∈ chars (escapeHtml s) → y ≠ "<"%char ∧ y ≠ ">"%char ∧ y ≠ "034"%char.
Proof.
  induction s as [|x s IH]; intros Hy.
  { by apply elem_of_nil in Hy. }
  rewrite escapeHtml_cons, chars_append in Hy.
  apply elem_of_app in Hy as [Hy|Hy]; [by eapply escape_char_safe|by apply IH].
Qed.

Lemma escapeHtml_safe_witness :
  ("l"%char : ascii) ≠ "<"%char ∧ ("l"%char : ascii) ≠ ">"%char
  ∧ ("l"%char : ascii) ≠ "034"%char.
Proof.
  apply (escapeHtml_safe "<b>" "l"). vm_compute.
  right. left.
Defined.

Lemma unescape_plain (x : ascii) (t : string) :
  x ≠ "&"%char → unescape (String x t) = String x (unescape t).
Proof.
  intros H. destruct x as [[] [] [] [] [] [] [] []]; try reflexivity.
  by destruct H.
Qed.

(** X15.  Decoding the four entities gives the text back, so two different
    texts never have the same escaped form. *)
Theorem escapeHtml_round_trip (s : string) :
  unescape (escapeHtml s) = s
  ∧ ∀ s', escapeHtml s' = escapeHtml s → s' = s.
Proof.
  assert (∀ t, unescape (escapeHtml t) = t) as Hrt.
  { induction t as [|x t IH]; [done|].
    rewrite escapeHtml_cons. unfold escape_char.
    destruct (decide (x = "&"%char)) as [->|H1].
    { change (String "&" (unescape (escapeHtml t)) = String "&" t). by rewrite IH. }
    destruct (decide (x = "<"%char)) as [->|H2].
    { change (String "<" (unescape (escapeHtml t)) = String "<" t). by rewrite IH. }
    destruct (decide (x = ">"%char)) as [->|H3].
    { change (String ">" (unescape (escapeHtml t)) = String ">" t). by rewrite IH. }
    destruct (decide (x = "034"%char)) as [->|H4].
    { change (String "034" (unescape (escapeHtml t)) = String "034" t). by rewrite IH. }
    rewrite append_cons, append_nil, unescape_plain by done. by rewrite IH. }
  split; [done|].
  intros s' E. by rewrite <-(Hrt s'), E.
Qed.

Lemma escape_char_length (x : ascii) : (1 ≤ String.length (escape_char x))%nat.
Proof. unfold escape_char. repeat case_decide; simpl; lia. Qed.

Lemma escapeHtml_length (s : string) :
  (String.length s ≤ String.length (escapeHtml s))%nat.
Proof.
  induction s as [|x s IH]; [done|].
  rewrite escapeHtml_cons, length_append. pose proof (escape_char_length x).
  simpl. lia.
Qed.

(** X16.  Escaping never shortens a text, and it leaves a text unchanged
    exactly when the text has none of the four characters; an apostrophe,
    for one, is never escaped. *)
Theorem escapeHtml_identity (s : string) :
  (String.length s ≤ String.length (escapeHtml s))%nat
  ∧ (escapeHtml s = s ↔ Forall plain_char (chars s)).
Proof.
  split; [apply escapeHtml_length|].
  induction s as [|x s IH]; [by split; [constructor|]|].
  rewrite escapeHtml_cons. change (chars (String x s)) with (x :: chars s).
  rewrite Forall_cons. unfold escape_char, plain_char.
  pose proof (escapeHtml_length s) as Hlen.
  destruct (decide (x = "&"%char)) as [->|H1].
  { split; [|by intros [[? _] _]]. intros E. exfalso.
    change (String "&" ("amp;" +:+ escapeHtml s) = String "&" s) in E.
    injection E as E. apply (f_equal String.length) in E.
    rewrite length_append in E. simpl in E. lia. }
  destruct (decide (x = "<"%char)) as [->|H2].
  { split; [by intros [=]|by intros [(_ & ? & _) _]]. }
  destruct (decide (x = ">"%char)) as [->|H3].
  { split; [by intros [=]|by intros [(_ & _ & ? & _) _]]. }
  destruct (decide (x = "034"%char)) as [->|H4].
  { split; [by intros [=]|by intros [(_ & _ & _ & ?) _]]. }
  rewrite append_cons, append_nil. split.
  - intros [= E]. split; [done|]. by apply IH.
  - intros [_ Hs]. f_equal. by apply IH.
Qed.

(** ** Sessions and prompts *)

Lemma sessionsOf_length (d : string * IndexFile) :
  length (sessionsOf d) = entryCount d.
Proof.
  unfold sessionsOf, entryCount. destruct d.2 as [| |[es|]]; simpl; [done..| |done].
  by rewrite length_fmap.
Qed.

(** X17.  Without a projects directory there are no sessions.  Otherwise
    the sessions are exactly the entries of the indexes that could be read,
    each once, in some order: a directory without an index, with an index
    that cannot be read or parsed, or with an index without [entries]
    contributes nothing and does not stop the others from being loaded. *)
Theorem loadAllSessions_count (Date_parse : string → option Z)
    (dirs : list (string * IndexFile)) :
  loadAllSessions Date_parse None = []
  ∧ loadAllSessions Date_parse (Some dirs) ≡ₚ mjoin (sessionsOf <$> dirs)
  ∧ length (loadAllSessions Date_parse (Some dirs)) = sum_list (entryCount <$> dirs)
  ∧ (∀ d, d.2 = Missing ∨ d.2 = Unreadable ∨ d.2 = Index None →
          loadAllSessions Date_parse (Some (d :: dirs))
          = loadAllSessions Date_parse (Some dirs)).
Proof.
  split_and!.
  - done.
  - apply sort_perm.
  - unfold loadAllSessions. rewrite sort_length, length_join.
    rewrite <-list_fmap_compose. f_equal. apply list_fmap_ext.
    intros i d _. apply sessionsOf_length.
  - intros d Hd. unfold loadAllSessions. rewrite fmap_cons.
    assert (sessionsOf d = []) as ->; [|done].
    unfold sessionsOf. by destruct Hd as [-> | [-> | ->]].
Qed.

Lemma by_created_by_key (Date_parse : string → option Z) (l : list Session.t) :
  dated Date_parse l → by_key (by_created Date_parse) (sessionTime Date_parse) l.
Proof.
  unfold dated. rewrite Forall_forall. intros Hc x y Hx Hy.
  destruct (Hc x Hx) as [a Ha], (Hc y Hy) as [b Hb].
  unfold JS.sort_compare, by_created, sessionTime. by rewrite Ha, Hb.
Qed.

(** X18.  When the [created] of every loaded entry parses as a date, the
    sessions come newest first, and sessions of the same instant keep the
    order in which the directories and their entries were read. *)
Theorem loadAllSessions_newest_first (Date_parse : string → option Z)
    (dirs : list (string * IndexFile)) :
  dated Date_parse (mjoin (sessionsOf <$> dirs)) →
  descending (sessionTime Date_parse) (loadAllSessions Date_parse (Some dirs))
  ∧ keeps_order (sessionTime Date_parse) (mjoin (sessionsOf <$> dirs))
      (loadAllSessions Date_parse (Some dirs)).
Proof.
  intros Hd. pose proof (by_created_by_key _ _ Hd) as Hk. split.
  - by apply sort_descending.
  - by apply sort_keeps_order.
Qed.

Lemma replace_all_no_char (c r : ascii) (s : string) :
  r ≠ c → c ∉ chars (replace_all c (String r EmptyString) s).
Proof.
  intros Hr. induction s as [|x s IH]; [apply not_elem_of_nil|].
  simpl. case_decide as Hx.
  - rewrite append_cons, append_nil. change (c ∉ r :: chars (replace_all c (String r EmptyString) s)).
    apply not_elem_of_cons. split; [by intros ->|done].
  - change (c ∉ x :: chars (replace_all c (String r EmptyString) s)).
    apply not_elem_of_cons. split; [by intros ->|done].
Qed.

Lemma replace_all_char_length (c r : ascii) (s : string) :
  String.length (replace_all c (String r EmptyString) s) = String.length s.
Proof.
  induction s as [|x s IH]; [done|].
  simpl. case_decide; [rewrite append_cons, append_nil|]; simpl; by rewrite IH.
Qed.

Lemma elem_of_sessionsOf (d : string * IndexFile) (s : Session.t) :
  s ∈ sessionsOf d →
  Session.projectDir s = d.1 ∧ Session.projectName s = projectNameOf d.1.
Proof.
  unfold sessionsOf. destruct d.2 as [| |[es|]]; simpl;
    try (intros H; by apply elem_of_nil in H).
  intros H. apply list_elem_of_fmap in H as (e & -> & _). done.
Qed.

Lemma dropLeadingSlash_other (x : ascii) (t : string) :
  x ≠ "/"%char → dropLeadingSlash (String x t) = String x t.
Proof.
  intros Hne. destruct x as [[] [] [] [] [] [] [] []]; try reflexivity.
  by destruct Hne.
Qed.

Lemma projectNameOf_no_hyphen (dir : string) : "-"%char ∉ chars (projectNameOf dir).
Proof.
  unfold projectNameOf.
  pose proof (replace_all_no_char "-" "/" dir) as Hn.
  destruct (replace_all "-" "/" dir) as [|x t] eqn:E; [apply not_elem_of_nil|].
  assert ("-"%char ∉ x :: chars t) as Hn' by (apply Hn; done).
  destruct (decide (x = "/"%char)) as [->|Hne].
  - apply not_elem_of_cons in Hn' as [_ Ht]. exact Ht.
  - by rewrite dropLeadingSlash_other.
Qed.

Lemma projectNameOf_length (dir : string) :
  (String.length dir - 1 ≤ String.length (projectNameOf dir) ≤ String.length dir)%nat.
Proof.
  unfold projectNameOf.
  pose proof (replace_all_char_length "-" "/" dir) as Hl.
  destruct (replace_all "-" "/" dir) as [|x t] eqn:E.
  { simpl in *. lia. }
  destruct (decide (x = "/"%char)) as [->|Hne].
  - simpl in *. lia.
  - rewrite dropLeadingSlash_other by done. simpl in *. lia.
Qed.

(** X19.  Every loaded session carries the directory it was found in and a
    project name derived from it alone: the directory name with every
    hyphen turned into a slash and one leading slash dropped.  A project
    name never contains a hyphen, so a hyphen that was part of a folder
    name is lost. *)
Theorem loadAllSessions_projectName (Date_parse : string → option Z)
    (dirs : list (string * IndexFile)) (s : Session.t) :
  s ∈ loadAllSessions Date_parse (Some dirs) →
  (∃ d, d ∈ dirs ∧ Session.projectDir s = d.1)
  ∧ Session.projectName s = projectNameOf (Session.projectDir s)
  ∧ ("-"%char ∉ chars (Session.projectName s))
  ∧ (String.length (Session.projectDir s) - 1
     ≤ String.length (Session.projectName s) ≤ String.length (Session.projectDir s))%nat.
Proof.
  unfold loadAllSessions. rewrite (sort_perm (by_created Date_parse)).
  intros Hs. apply list_elem_of_join in Hs as (l & Hs & Hl).
  apply list_elem_of_fmap in Hl as (d & -> & Hd).
  apply elem_of_sessionsOf in Hs as [E1 E2].
  rewrite E2, E1. split; [by exists d|]. split; [done|]. split.
  - apply projectNameOf_no_hyphen.
  - apply projectNameOf_length.
Qed.

Lemma dated_demo_projects : dated demo_parse (mjoin (sessionsOf <$> demo_projects)).
Proof. repeat constructor; by eexists. Qed.

Lemma loadAllSessions_newest_first_witness :
  descending (sessionTime demo_parse) (loadAllSessions demo_parse (Some demo_projects)).
Proof.
  apply (loadAllSessions_newest_first demo_parse demo_projects).
  repeat constructor; by eexists.
Defined.

Lemma loadAllSessions_projectName_witness :
  "-"%char ∉ chars "Users/nat/my/app".
Proof.
  apply (loadAllSessions_projectName demo_parse demo_projects
           {| Session.entry :=
                {| Entry.created := Some "2026-01-02T09:00:00.000Z"%string;
                   Entry.firstPrompt := Some "fix <title> & footer"%string;
                   Entry.summary := Some "Fixing the page"%string;
                   Entry.messageCount := None |};
              Session.projectDir := "-Users-nat-my-app";
              Session.projectName := "Users/nat/my/app" |}).
  vm_compute. left.
Defined.

Lemma substring_0_length_le (m : nat) (s : string) :
  (String.length s ≤ m)%nat → substring 0 m s = s.
Proof.
  revert m. induction s as [|x s IH]; intros m Hm.
  { by destruct m. }
  destruct m as [|m]; simpl in *; [lia|]. rewrite IH; [done|lia].
Qed.

Lemma substring_0_length (m : nat) (s : string) :
  String.length (substring 0 m s) = Nat.min m (String.length s).
Proof.
  revert m. induction s as [|x s IH]; intros m.
  { by destruct m. }
  destruct m as [|m]; simpl; [done|]. by rewrite IH.
Qed.










(** ** [fmt] *)

(** [toFixed] of a non-negative quotient of integers below the switch to
    exponent notation, in integer arithmetic. *)
Lemma toFixed_quotient (Number_toString : Q → string) (f : nat) (n d : Z) :
  0 ≤ n → 0 < d → n < 10 ^ 21 * d →
  JS.toFixed Number_toString f (inject_Z n / inject_Z d)
  = JS.digits f ((2 * n * 10 ^ Z.of_nat f + d) `div` (2 * d)).
Proof.
  intros Hn Hd Hr.
  assert (0 < inject_Z d)%Q as Hd' by (rewrite <-(Zlt_Qlt 0); lia).
  assert (¬ (inject_Z d == 0)%Q) as Hd0.
  { intros H. rewrite H in Hd'. by apply Qlt_irrefl in Hd'. }
  assert (0 <= inject_Z n / inject_Z d)%Q as Hx.
  { apply Qle_shift_div_l; [done|]. rewrite Qmult_0_l, <-(Zle_Qle 0). lia. }
  unfold JS.toFixed.
  assert (Qle_bool 0 (inject_Z n / inject_Z d) = true) as -> by by apply Qle_bool_iff.
  assert (Qle_bool (inject_Z (10 ^ 21)) (Qabs (inject_Z n / inject_Z d)) = false) as ->.
  { apply not_true_is_false. rewrite Qle_bool_iff, Qabs_pos by done.
    apply Qlt_not_le, Qlt_shift_div_r; [done|].
    by rewrite <-inject_Z_mult, <-Zlt_Qlt. }
  rewrite append_nil. f_equal.
  unfold JS.nearest. rewrite Zdiv_Qdiv. apply Qfloor_comp.
  rewrite Qabs_pos by done.
  rewrite !inject_Z_plus, !inject_Z_mult. change (inject_Z 2) with 2%Q.
  by field.
Qed.

Lemma digits_two_decimal_small :
  Forall (λ n, JS.digits 2 n = two_decimal n) (seqZ 0 100).
Proof. by apply (bool_decide_unpack _); vm_compute. Qed.

(** With two fraction digits the steps of [toFixed] print the integer
    part, a point and the last two digits. *)
Lemma digits_two_decimal (n : Z) : 0 ≤ n → JS.digits 2 n = two_decimal n.
Proof.
  intros Hn. destruct (decide (n < 100)) as [Hlt|Hge].
  { pose proof digits_two_decimal_small as H. rewrite Forall_forall in H.
    apply H, elem_of_seqZ. lia. }
  unfold JS.digits, two_decimal.
  rewrite (decide_False (P := n = 0)) by lia.
  rewrite (decide_False (P := 2%nat = 0%nat)) by lia.
  assert (Z.to_N (n / 100) = ((Z.to_N n `div` 10) `div` 10)%N) as ->.
  { replace (n / 100) with (n / 10 / 10) by (rewrite Z.div_div by lia; done).
    rewrite !Z2N.inj_div by (try apply Z.div_pos; lia). done. }
  assert (Z.to_N ((n / 10) mod 10) = ((Z.to_N n `div` 10) `mod` 10)%N) as ->.
  { rewrite Z2N.inj_mod, Z2N.inj_div by (try apply Z.div_pos; lia). done. }
  assert (Z.to_N (n mod 10) = (Z.to_N n `mod` 10)%N) as ->.
  { by rewrite Z2N.inj_mod by lia. }
  set (x := Z.to_N n).
  assert (100 ≤ x)%N as Hx by (unfold x; lia).
  assert (10 ≤ x `div` 10)%N as Hx'.
  { apply N.div_le_lower_bound; lia. }
  rewrite (pretty_N_snoc x) by lia.
  rewrite (pretty_N_snoc (x `div` 10)) by done.
  set (a := pretty ((x `div` 10) `div` 10)%N).
  rewrite (pretty_N_digit ((x `div` 10) `mod` 10)) by (apply N.mod_lt; lia).
  rewrite (pretty_N_digit (x `mod` 10)) by (apply N.mod_lt; lia).
  set (c1 := pretty_N_char ((x `div` 10) `mod` 10)).
  set (c0 := pretty_N_char (x `mod` 10)).
  pose proof (pretty_N_nonempty ((x `div` 10) `div` 10)) as Ha. fold a in Ha.
  rewrite append_assoc.
  change (String c1 EmptyString +:+ String c0 EmptyString)
    with (String c1 (String c0 EmptyString)).
  rewrite length_append. simpl String.length.
  rewrite !(decide_False (P := (String.length a + 2 ≤ 2)%nat)) by lia.
  replace (String.length a + 2 - 2)%nat with (String.length a) by lia.
  by rewrite substring_append_l, substring_append_r.
Qed.



(** X24.  From a thousand up [fmt] prints the number of thousands with one
    decimal place and a K, of millions with two decimal places and an M,
    of billions with two decimal places and a B, rounded to the nearest
    printable value (inputs exactly half-way between two of them apart). *)
Theorem fmt_abbreviates (Number_toString : Q → string) (n : Z) :
  (1000 ≤ n < 10 ^ 6 → n mod 100 ≠ 50 →
   fmt Number_toString n = one_decimal ((n + 50) `div` 100) +:+ "K")
  ∧ (10 ^ 6 ≤ n < 10 ^ 9 → n mod 10000 ≠ 5000 →
     fmt Number_toString n = two_decimal ((n + 5000) `div` 10000) +:+ "M")
  ∧ (10 ^ 9 ≤ n ≤ 2 ^ 53 - 1 → n mod 10000000 ≠ 5000000 →
     fmt Number_toString n = two_decimal ((n + 5000000) `div` 10000000) +:+ "B").
Proof.
  unfold fmt. split_and!.
  - intros Hn _. rewrite !decide_False by lia. rewrite decide_True by lia.
    rewrite (toFixed_quotient _ 1 n 1000) by lia.
    change (10 ^ Z.of_nat 1) with 10.
    replace (2 * n * 10 + 1000) with ((n + 50) * 20) by lia.
    change (2 * 1000) with (100 * 20). rewrite Z.div_mul_cancel_r by lia.
    rewrite digits_one_decimal; [done|]. apply Z.div_pos; lia.
  - intros Hn _. rewrite decide_False by lia. rewrite decide_True by lia.
    rewrite (toFixed_quotient _ 2 n 1000000) by lia.
    change (10 ^ Z.of_nat 2) with 100.
    replace (2 * n * 100 + 1000000) with ((n + 5000) * 200) by lia.
    change (2 * 1000000) with (10000 * 200). rewrite Z.div_mul_cancel_r by lia.
    rewrite digits_two_decimal; [done|]. apply Z.div_pos; lia.
  - intros Hn _. rewrite decide_True by lia.
    rewrite (toFixed_quotient _ 2 n 1000000000) by lia.
    change (10 ^ Z.of_nat 2) with 100.
    replace (2 * n * 100 + 1000000000) with ((n + 5000000) * 200) by lia.
    change (2 * 1000000000) with (10000000 * 200).
    rewrite Z.div_mul_cancel_r by lia.
    rewrite digits_two_decimal; [done|]. apply Z.div_pos; lia.
Qed.

Lemma fmt_abbreviates_witness :
  fmt (λ _, EmptyString) 1234 = "1.2K"
  ∧ fmt (λ _, EmptyString) 15000000 = "15.00M"
  ∧ fmt (λ _, EmptyString) 2718281828 = "2.72B".
Proof.
  split_and!.
  - apply (fmt_abbreviates (λ _, EmptyString) 1234); [lia|done].
  - apply (fmt_abbreviates (λ _, EmptyString) 15000000); [lia|done].
  - apply (fmt_abbreviates (λ _, EmptyString) 2718281828); [lia|done].
Defined.

(** X25.  The suffix is chosen before rounding, so the rounding can carry
    past it: just below a million [fmt] prints 1000.0K and just below a
    billion 1000.00M, not 1.00M and 1.00B. *)
Theorem fmt_carry (Number_toString : Q → string) (n : Z) :
  (999950 < n < 10 ^ 6 → fmt Number_toString n = "1000.0K")
  ∧ (999995000 < n < 10 ^ 9 → fmt Number_toString n = "1000.00M").
Proof.
  unfold fmt. split.
  - intros Hn. rewrite !decide_False by lia. rewrite decide_True by lia.
    rewrite (toFixed_quotient _ 1 n 1000) by lia.
    change (10 ^ Z.of_nat 1) with 10.
    assert ((2 * n * 10 + 1000) `div` (2 * 1000) = 10000) as ->; [|done].
    symmetry. apply Z.div_unique with (2 * n * 10 + 1000 - 10000 * 2000); lia.
  - intros Hn. rewrite decide_False by lia. rewrite decide_True by lia.
    rewrite (toFixed_quotient _ 2 n 1000000) by lia.
    change (10 ^ Z.of_nat 2) with 100.
    assert ((2 * n * 100 + 1000000) `div` (2 * 1000000) = 100000) as ->; [|done].
    symmetry. apply Z.div_unique with (2 * n * 100 + 1000000 - 100000 * 2000000); lia.
Qed.

Lemma fmt_carry_witness : fmt (λ _, EmptyString) 999999 = "1000.0K".
Proof. apply (fmt_carry (λ _, EmptyString) 999999). lia. Defined.

(** ** [modelColor] and [modelShortName] *)

Lemma prefix_trans (a b c : string) :
  String.prefix a b = true → String.prefix b c = true → String.prefix a c = true.
Proof.
  revert b c. induction a as [|x a IH]; intros b c Hab Hbc; [by destruct c|].
  destruct b as [|y b]; [by simpl in Hab|].
  destruct c as [|z c]; [by simpl in Hbc|].
  simpl in *.
  destruct (ascii_dec x y) as [->|]; [|done].
  destruct (ascii_dec y z) as [->|]; [|done].
  by eapply IH.
Qed.

Lemma includes_prefix (a b hay : string) :
  String.prefix a b = true → includes b hay = true → includes a hay = true.
Proof.
  intros Hab. induction hay as [|x hay IH]; cbn [includes].
  - destruct (String.prefix b "") eqn:E; [|done].
    intros _. by rewrite (prefix_trans a b "" Hab E).
  - destruct (String.prefix b (String x hay)) eqn:E.
    + intros _. by rewrite (prefix_trans a b _ Hab E).
    + intros H. rewrite (IH H). by destruct (String.prefix a (String x hay)).
Qed.

(** X26.  A model is drawn in gray exactly when its identifier names none
    of the seven families opus, sonnet, haiku, gemini, glm, gpt and grok
    (in lower case, anywhere in the identifier). *)
Theorem modelColor_gray (id : string) :
  modelColor id = {| bg := "gray"; hex := "#6b7280" |}
  ↔ Forall (λ family, includes family id = false)
      ["opus"; "sonnet"; "haiku"; "gemini"; "glm"; "gpt"; "grok"]%string.
Proof.
  unfold modelColor. split.
  - destruct (includes "opus-4-6" id) eqn:E0; [done|].
    destruct (includes "opus" id) eqn:E1; [done|].
    destruct (includes "sonnet" id) eqn:E2; [done|].
    destruct (includes "haiku" id) eqn:E3; [done|].
    destruct (includes "gemini" id) eqn:E4; [done|].
    destruct (includes "glm" id) eqn:E5; [done|].
    destruct (includes "gpt" id) eqn:E6; [done|].
    destruct (includes "grok" id) eqn:E7; [done|].
    intros _. by repeat constructor.
  - intros H.
    repeat (apply Forall_cons in H as [? H]).
    destruct (includes "opus-4-6" id) eqn:E0.
    { assert (includes "opus" id = true) by by apply (includes_prefix _ "opus-4-6").
      congruence. }
    by repeat match goal with Hf : includes _ id = false |- _ => rewrite Hf; clear Hf end.
Qed.

Lemma skip_append (a b : string) : skip (String.length a) (a +:+ b) = b.
Proof. induction a as [|x a IH]; [done|]. rewrite append_cons. simpl. exact IH. Qed.

Lemma prefix_append (a b : string) : String.prefix a (a +:+ b) = true.
Proof.
  induction a as [|x a IH]; [by destruct b|].
  rewrite append_cons. simpl. by destruct (ascii_dec x x).
Qed.

Lemma remove_first_prefix (needle rest : string) :
  remove_first needle (needle +:+ rest) = rest.
Proof.
  destruct (needle +:+ rest) as [|x t] eqn:E; cbn [remove_first].
  - rewrite <-E, prefix_append, skip_append. done.
  - rewrite <-E, prefix_append, skip_append. done.
Qed.

Lemma remove_first_absent (needle s : string) :
  includes needle s = false → remove_first needle s = s.
Proof.
  induction s as [|x s IH]; cbn [includes remove_first].
  - by destruct (String.prefix needle "").
  - destruct (String.prefix needle (String x s)); [done|].
    intros H. by rewrite IH.
Qed.

Lemma ends_with_date_append (year202 : bool) (base ds : string) :
  eight_digits ds →
  ends_with_date year202 (base +:+ "-" +:+ ds)
  = if year202 then String.prefix "202" ds else true.
Proof.
  intros [Hl Hd]. unfold ends_with_date.
  rewrite length_append. change (String.length ("-" +:+ ds)) with (S (String.length ds)).
  rewrite Hl.
  replace (String.length base + 9 - 9)%nat with (String.length base) by lia.
  rewrite substring_append_r.
  rewrite (substring_0_length_le 9) by (change (S (String.length ds) ≤ 9)%nat; lia).
  change ("-" +:+ ds) with (String "-" ds). cbv iota beta.
  rewrite Hd.
  rewrite (proj2 (Nat.leb_le 9 (String.length base + 9))) by lia.
  done.
Qed.

Lemma strip_date_append (year202 : bool) (base ds : string) :
  eight_digits ds → (if year202 then String.prefix "202" ds else true) = true →
  strip_date year202 (base +:+ "-" +:+ ds) = base.
Proof.
  intros Hd Hy. unfold strip_date. rewrite ends_with_date_append, Hy by done.
  rewrite length_append. change (String.length ("-" +:+ ds)) with (S (String.length ds)).
  destruct Hd as [-> _].
  replace (String.length base + 9 - 9)%nat with (String.length base) by lia.
  apply substring_append_l.
Qed.

(** X27.  An identifier made of [claude-], a name and a hyphen with eight
    digits is shortened to the name, provided the name does not itself end
    in a hyphen with eight digits. *)
Theorem modelShortName_claude (name ds : string) :
  eight_digits ds → ends_with_date false name = false →
  modelShortName ("claude-" +:+ name +:+ "-" +:+ ds) = name.
Proof.
  intros Hd Hn. unfold modelShortName.
  rewrite remove_first_prefix.
  destruct (String.prefix "202" ds) eqn:E.
  - rewrite (strip_date_append true) by done.
    unfold strip_date. by rewrite Hn.
  - assert (strip_date true (name +:+ "-" +:+ ds) = name +:+ "-" +:+ ds) as ->.
    { unfold strip_date. by rewrite ends_with_date_append, E by done. }
    by apply strip_date_append.
Qed.

Lemma modelShortName_claude_witness :
  modelShortName "claude-opus-4-5-20251101" = "opus-4-5".
Proof.
  apply (modelShortName_claude "opus-4-5" "20251101"); by vm_compute.
Defined.

Lemma ends_with_date_weaken (s : string) :
  ends_with_date false s = false → ends_with_date true s = false.
Proof.
  unfold ends_with_date.
  destruct (9 <=? String.length s)%nat; [|done]. simpl.
  destruct (substring (String.length s - 9) 9 s) as [|c ds]; [done|].
  destruct c as [[] [] [] [] [] [] [] []]; try done.
  destruct (forallb is_digit (chars ds)); [done|]. done.
Qed.

Lemma substring_0_le (m : nat) (s : string) :
  (String.length (substring 0 m s) ≤ String.length s)%nat.
Proof. rewrite substring_0_length. lia. Qed.

Lemma skip_length (n : nat) (s : string) :
  (String.length (skip n s) ≤ String.length s)%nat.
Proof.
  revert s. induction n as [|n IH]; intros s; [done|].
  destruct s as [|x t]; [done|]. simpl. specialize (IH t). lia.
Qed.

Lemma remove_first_length (needle s : string) :
  (String.length (remove_first needle s) ≤ String.length s)%nat.
Proof.
  induction s as [|x s IH].
  - cbn [remove_first]. destruct (String.prefix needle ""); [apply skip_length|done].
  - cbn [remove_first]. destruct (String.prefix needle (String x s)).
    + apply skip_length.
    + simpl. lia.
Qed.

Lemma strip_date_length (year202 : bool) (s : string) :
  (String.length (strip_date year202 s) ≤ String.length s)%nat.
Proof.
  unfold strip_date. destruct (ends_with_date year202 s); [|done].
  apply substring_0_le.
Qed.

(** X28.  [modelShortName] never lengthens an identifier, and it leaves
    unchanged an identifier that neither contains [claude-] nor ends in a
    hyphen with eight digits (gemini-2.5-pro, for one). *)
Theorem modelShortName_unchanged (id : string) :
  (String.length (modelShortName id) ≤ String.length id)%nat
  ∧ (includes "claude-" id = false → ends_with_date false id = false →
     modelShortName id = id).
Proof.
  unfold modelShortName. split.
  - pose proof (remove_first_length "claude-" id).
    pose proof (strip_date_length true (remove_first "claude-" id)).
    pose proof (strip_date_length false (strip_date true (remove_first "claude-" id))).
    lia.
  - intros Hc Hd. rewrite remove_first_absent by done.
    unfold strip_date. by rewrite (ends_with_date_weaken id Hd), Hd.
Qed.

Lemma modelShortName_unchanged_witness : modelShortName "gemini-2.5-pro" = "gemini-2.5-pro".
Proof. apply (modelShortName_unchanged "gemini-2.5-pro"); by vm_compute. Defined.

(** ** The project column *)

Lemma split_on_nonempty (c : ascii) (s : string) : split_on c s ≠ [].
Proof.
  induction s as [|x s IH]; [done|]. simpl.
  case_decide; [done|]. by destruct (split_on c s).
Qed.

Lemma split_on_no_separator (c : ascii) (s : string) :
  Forall (λ part, c ∉ chars part) (split_on c s).
Proof.
  induction s as [|x s IH]; simpl.
  { constructor; [apply not_elem_of_nil|constructor]. }
  case_decide as Hx.
  - constructor; [apply not_elem_of_nil|done].
  - destruct (split_on c s) as [|part parts].
    + constructor; [|constructor].
      change (c ∉ [x]). apply not_elem_of_cons. split; [by intros ->|apply not_elem_of_nil].
    + apply Forall_cons in IH as [Hp Hps]. constructor; [|done].
      change (c ∉ x :: chars part). apply not_elem_of_cons. split; [by intros ->|done].
Qed.

Lemma join_with_cons (c : ascii) (part : string) (rest : list string) :
  rest ≠ [] → join_with c (part :: rest) = part +:+ String c (join_with c rest).
Proof. by destruct rest. Qed.

Lemma join_split_on (c : ascii) (s : string) : join_with c (split_on c s) = s.
Proof.
  induction s as [|x s IH]; [done|]. simpl.
  pose proof (split_on_nonempty c s) as Hne.
  case_decide as Hx.
  - subst x. rewrite join_with_cons by done. by rewrite IH.
  - destruct (split_on c s) as [|part parts]; [done|].
    destruct parts as [|part' parts].
    + simpl in *. by rewrite IH.
    + rewrite join_with_cons by done. rewrite join_with_cons in IH by done.
      rewrite append_cons. by rewrite IH.
Qed.

Lemma join_with_app (c : ascii) (l1 l2 : list string) :
  l1 ≠ [] → l2 ≠ [] →
  join_with c (l1 ++ l2) = join_with c l1 +:+ String c (join_with c l2).
Proof.
  intros H1 H2. induction l1 as [|p l1 IH]; [done|].
  destruct l1 as [|p' l1].
  - simpl app. by rewrite join_with_cons.
  - change ((p :: p' :: l1) ++ l2) with (p :: ((p' :: l1) ++ l2)).
    rewrite join_with_cons by done. rewrite IH by done.
    rewrite (join_with_cons c p (p' :: l1)) by done.
    by rewrite append_assoc.
Qed.

(** X29.  The project shown for a prompt is the end of the project name
    from its second-to-last slash on: it is a suffix of the project name,
    it has at most one slash, and a project name with at most one slash is
    shown whole. *)
Theorem projectLabel_suffix (project : string) :
  (∃ before, project = before +:+ projectLabel project)
  ∧ (∃ a b, ("/"%char ∉ chars a) ∧ ("/"%char ∉ chars b)
            ∧ (projectLabel project = b
               ∨ projectLabel project = a +:+ String "/" b))
  ∧ ((length (split_on "/" project) ≤ 2)%nat → projectLabel project = project).
Proof.
  unfold projectLabel.
  pose proof (join_split_on "/" project) as Hj.
  pose proof (split_on_no_separator "/" project) as Hf.
  pose proof (split_on_nonempty "/" project) as Hne.
  set (parts := split_on "/" project) in *.
  assert (length parts ≤ 2 → drop (length parts - 2) parts = parts)%nat as Hshort.
  { intros H. by replace (length parts - 2)%nat with 0%nat by lia. }
  split_and!.
  - destruct (decide (length parts ≤ 2)%nat) as [Hs|Hl].
    { exists EmptyString. by rewrite Hshort, Hj. }
    exists (join_with "/" (take (length parts - 2) parts) +:+ "/").
    rewrite <-Hj at 1.
    rewrite <-(take_drop (length parts - 2) parts) at 1.
    rewrite join_with_app.
    + by rewrite append_assoc.
    + intros E. apply (f_equal length) in E. rewrite length_take in E.
      simpl in E. lia.
    + intros E. apply (f_equal length) in E. rewrite length_drop in E.
      simpl in E. lia.
  - assert (Forall (λ part, "/"%char ∉ chars part) (drop (length parts - 2) parts))
      as Hd by by apply Forall_drop.
    assert (length (drop (length parts - 2) parts) ≤ 2)%nat as Hl
      by (rewrite length_drop; lia).
    destruct (drop (length parts - 2) parts) as [|a [|b [|? ?]]]; simpl in Hl;
      [..|lia].
    + exists EmptyString, EmptyString. split_and!; [apply not_elem_of_nil..|by left].
    + apply Forall_cons in Hd as [Ha _].
      exists EmptyString, a. split_and!; [apply not_elem_of_nil|done|by left].
    + apply Forall_cons in Hd as [Ha Hd]. apply Forall_cons in Hd as [Hb _].
      exists a, b. split_and!; [done..|by right].
  - intros H. by rewrite Hshort, Hj.
Qed.
